(** * The remote image service of the kubelet (pkg/kubelet/cri/remote/remote_image.go)

    A shallow embedding of the gRPC client adapter [remoteImageService] and of
    its constructor [NewRemoteImageService], followed by the properties that
    the design document states about them.

    Go values are modelled as follows.
    - A pointer [*T] is an [option T]: [None] is [nil].  Dereferencing [nil]
      panics, and the model keeps that outcome ([Panics]).
    - The receiver [r *remoteImageService] is a location in a heap of service
      structs, so that a write to [r.imageClient] is visible to later calls.
    - A Go function returning [(v, err)] returns a pair whose second component
      is an [option error]; [None] is the [nil] error.
    - The backend behind the channel is a state machine over an arbitrary
      state type: every client method maps a context, a request and a backend
      state to a reply and a new backend state.
    - Everything observable that the adapter does (scopes opened and released,
      calls sent on the channel, log lines) is appended to a trace. *)

From Stdlib Require Import Ascii String ZArith NArith List Bool Lia.
From ExtLib Require Import Structures.Monad.
Import ListNotations.
Import MonadNotation.
Local Open Scope string_scope.
Local Open Scope list_scope.
Local Open Scope monad_scope.

Set Implicit Arguments.

(** ** Values of the Go standard library and of gRPC *)

(** [time.Duration]: a signed 64-bit count of nanoseconds. *)
Definition Duration := Z.

(** [codes.Code] of google.golang.org/grpc/codes. *)
Inductive Code :=
| OK | Canceled | Unknown | InvalidArgument | DeadlineExceeded | NotFound
| AlreadyExists | PermissionDenied | ResourceExhausted | FailedPrecondition
| Aborted | OutOfRange | Unimplemented | Internal | Unavailable | DataLoss
| Unauthenticated.

Definition Code_eqb (a b : Code) : bool :=
  match a, b with
  | OK, OK | Canceled, Canceled | Unknown, Unknown
  | InvalidArgument, InvalidArgument | DeadlineExceeded, DeadlineExceeded
  | NotFound, NotFound | AlreadyExists, AlreadyExists
  | PermissionDenied, PermissionDenied | ResourceExhausted, ResourceExhausted
  | FailedPrecondition, FailedPrecondition | Aborted, Aborted
  | OutOfRange, OutOfRange | Unimplemented, Unimplemented
  | Internal, Internal | Unavailable, Unavailable | DataLoss, DataLoss
  | Unauthenticated, Unauthenticated => true
  | _, _ => false
  end.

(** Go [error] values that occur in this file.
    - [grpc_status c msg]: the status error a gRPC channel hands back;
    - [errors_New msg]: the result of [errors.New(msg)];
    - [fmt_Errorf_w msg e]: the result of [fmt.Errorf] with a [%w] verb, whose
      text is [msg] and which wraps [e]. *)
Inductive error :=
| grpc_status (c : Code) (msg : string)
| errors_New (msg : string)
| fmt_Errorf_w (msg : string) (wrapped : error).

(** The [Error()] method. *)
Definition Error (e : error) : string :=
  match e with
  | grpc_status _ msg => msg
  | errors_New msg => msg
  | fmt_Errorf_w msg _ => msg
  end.

(** [status.Code(err)] for a non-nil [err]: the code of a status error,
    [codes.Unknown] for every other error value. *)
Definition status_Code (err : error) : Code :=
  match err with
  | grpc_status c _ => c
  | _ => Unknown
  end.

(** [errors.Unwrap(err)]: the error that a [%w] verb wrapped, if any. *)
Definition Unwrap (err : error) : option error :=
  match err with
  | fmt_Errorf_w _ wrapped => Some wrapped
  | _ => None
  end.

(** A [context.Context] derived from [context.Background()]: its identity and
    its deadline ([None] when the context can only be cancelled). *)
Record Context := mkContext {
  ctx_id : nat;
  ctx_deadline : option Duration
}.

(** A [context.CancelFunc] releases the scope it was created with. *)
Definition CancelFunc := nat.

(** A slice: [None] is the nil slice. *)
Definition slice (A : Type) := option (list A).

(** ** Messages of k8s.io/cri-api/pkg/apis/runtime/v1 *)

Record ImageSpec := {
  ImageSpec_Image : string;
  ImageSpec_Annotations : list (string * string)
}.

Record Image := {
  Image_Id : string;
  Image_RepoTags : list string;
  Image_RepoDigests : list string;
  Image_Size_ : N;                       (* uint64 *)
  Image_Username : string;
  Image_Spec : option ImageSpec;
  Image_Pinned : bool
}.

Record ImageFilter := { ImageFilter_Image : option ImageSpec }.

Record AuthConfig := {
  AuthConfig_Username : string;
  AuthConfig_Password : string;
  AuthConfig_Auth : string;
  AuthConfig_ServerAddress : string;
  AuthConfig_IdentityToken : string;
  AuthConfig_RegistryToken : string
}.

(** The sandbox configuration is only forwarded. *)
Record PodSandboxConfig := { PodSandboxConfig_Hostname : string }.

Record FilesystemUsage := {
  FilesystemUsage_Timestamp : Z;
  FilesystemUsage_Mountpoint : option string;
  FilesystemUsage_UsedBytes : option N;
  FilesystemUsage_InodesUsed : option N
}.

Record ListImagesRequest := { ListImagesRequest_Filter : option ImageFilter }.
Record ListImagesResponse := { ListImagesResponse_Images : slice (option Image) }.

Record ImageStatusRequest := {
  ImageStatusRequest_Image : option ImageSpec;
  ImageStatusRequest_Verbose : bool
}.
Record ImageStatusResponse := {
  ImageStatusResponse_Image : option Image;
  ImageStatusResponse_Info : list (string * string)
}.

Record PullImageRequest := {
  PullImageRequest_Image : option ImageSpec;
  PullImageRequest_Auth : option AuthConfig;
  PullImageRequest_SandboxConfig : option PodSandboxConfig
}.
Record PullImageResponse := { PullImageResponse_ImageRef : string }.

Record RemoveImageRequest := { RemoveImageRequest_Image : option ImageSpec }.
Record RemoveImageResponse := { }.

Record ImageFsInfoRequest := { }.
Record ImageFsInfoResponse := {
  ImageFsInfoResponse_ImageFilesystems : slice (option FilesystemUsage)
}.

(** The generated getter [GetImageFilesystems] of [ImageFsInfoResponse], which
    answers nil on a nil receiver. *)
Definition GetImageFilesystems (m : option ImageFsInfoResponse)
  : slice (option FilesystemUsage) :=
  match m with
  | Some m => ImageFsInfoResponse_ImageFilesystems m
  | None => None
  end.

(** The five remote operations. *)
Inductive Method :=
| mListImages | mImageStatus | mPullImage | mRemoveImage | mImageFsInfo.

(** ** klog *)

Inductive LogLine :=
| InfoS (verbosity : nat) (msg : string)
| ErrorS (err : error) (msg : string) (keysAndValues : list string).

(** ** How a Go call ends *)

Inductive Outcome (A : Type) :=
| Returns (a : A)
| Panics.
Arguments Panics {A}.

(** ** The adapter *)

Section Adapter.

(** The state of whatever answers on the other side of the channel. *)
Variable S : Type.

(** [fmt]'s [%q] verb on a string (strconv.Quote). *)
Variable quote : string -> string.

(** Go types that are only handed on. *)
Variable Dialer : Type.
Variable ClientConn : Type.
Variable TracerProvider : Type.

(** [runtimeapi.ImageServiceClient]: the interface the adapter calls. *)
Record ImageServiceClient := {
  client_ListImages :
    Context -> ListImagesRequest -> S ->
    (option ListImagesResponse * option error) * S;
  client_ImageStatus :
    Context -> ImageStatusRequest -> S ->
    (option ImageStatusResponse * option error) * S;
  client_PullImage :
    Context -> PullImageRequest -> S ->
    (option PullImageResponse * option error) * S;
  client_RemoveImage :
    Context -> RemoveImageRequest -> S ->
    (option RemoveImageResponse * option error) * S;
  client_ImageFsInfo :
    Context -> ImageFsInfoRequest -> S ->
    (option ImageFsInfoResponse * option error) * S
}.

Inductive DialOption :=
| WithTransportCredentials_insecure
| WithContextDialer (d : Dialer)
| WithDefaultCallOptions_MaxCallRecvMsgSize (n : Z)
| WithUnaryInterceptor_otelgrpc (tp : option TracerProvider)
| WithStreamInterceptor_otelgrpc (tp : option TracerProvider).

(** [util.GetAddressAndDialer], [grpc.DialContext],
    [runtimeapi.NewImageServiceClient], the feature gate
    [features.KubeletTracing] and the package constant [maxMsgSize]. *)
Variable GetAddressAndDialer : string -> string * Dialer * option error.
Variable grpc_DialContext :
  Context -> string -> list DialOption -> S -> (ClientConn * option error) * S.
Variable NewImageServiceClient : ClientConn -> ImageServiceClient.
Variable KubeletTracing : bool.
Variable maxMsgSize : Z.

(** ** The service struct, the heap and the trace *)

Record remoteImageService := {
  timeout : Duration;
  imageClient : option ImageServiceClient      (* a nil interface is [None] *)
}.

Inductive Event :=
| EvScope (c : Context)                 (* a cancellation scope was opened *)
| EvRelease (id : nat)                  (* its cancel function was called *)
| EvRPC (m : Method) (c : Context)      (* one call sent on the channel *)
| EvLog (l : LogLine).

Record World := mkWorld {
  backend : S;
  heap : list remoteImageService;
  trace : list Event;
  scopes : nat                           (* number of contexts created *)
}.

(** ** Go computations: a state monad over [World] that may panic *)

Definition Go (A : Type) := World -> Outcome A * World.

Definition Go_ret {A} (a : A) : Go A := fun w => (Returns a, w).

Definition Go_bind {A B} (c : Go A) (k : A -> Go B) : Go B :=
  fun w =>
    match c w with
    | (Returns a, w') => k a w'
    | (Panics, w') => (Panics, w')
    end.

#[local] Instance Monad_Go : Monad Go :=
  {| ret := @Go_ret; bind := @Go_bind |}.

Definition panic {A} : Go A := fun w => (Panics, w).

(** [defer f(); body]: [f] runs when [body] returns and when it panics. *)
Definition defer {A} (f : Go unit) (body : Go A) : Go A :=
  fun w =>
    match body w with
    | (o, w') =>
        match f w' with
        | (Returns _, w'') => (o, w'')
        | (Panics, w'') => (Panics, w'')
        end
    end.

Definition emit (e : Event) : Go unit :=
  fun w => (Returns tt,
            mkWorld (backend w) (heap w) (trace w ++ [e]) (scopes w)).

Definition klog (l : LogLine) : Go unit := emit (EvLog l).

(** [*p]: a nil dereference panics. *)
Definition deref {A} (p : option A) : Go A :=
  match p with
  | Some a => ret a
  | None => panic
  end.

(** Reading the struct behind the receiver. *)
Definition load (r : nat) : Go remoteImageService :=
  fun w => deref (nth_error (heap w) r) w.

Fixpoint list_set {A} (l : list A) (i : nat) (a : A) : list A :=
  match l, i with
  | [], _ => []
  | _ :: t, O => a :: t
  | h :: t, Datatypes.S j => h :: list_set t j a
  end.

(** Assigning to a field behind the receiver. *)
Definition store (r : nat) (v : remoteImageService) : Go unit :=
  fun w =>
    match nth_error (heap w) r with
    | Some _ => (Returns tt,
                 mkWorld (backend w) (list_set (heap w) r v) (trace w) (scopes w))
    | None => (Panics, w)
    end.

(** [&remoteImageService{...}] *)
Definition alloc (v : remoteImageService) : Go nat :=
  fun w => (Returns (length (heap w)),
            mkWorld (backend w) (heap w ++ [v]) (trace w) (scopes w)).

(** Opening a scope: the context gets a fresh identity. *)
Definition new_scope (deadline : option Duration) : Go (Context * CancelFunc) :=
  fun w =>
    let c := mkContext (scopes w) deadline in
    (Returns (c, scopes w),
     mkWorld (backend w) (heap w) (trace w ++ [EvScope c]) (Datatypes.S (scopes w))).

Definition cancel (f : CancelFunc) : Go unit := emit (EvRelease f).

(** [context.WithTimeout(context.Background(), d)] *)
Definition context_WithTimeout (d : Duration) : Go (Context * CancelFunc) :=
  new_scope (Some d).

(** [context.WithCancel(context.Background())] *)
Definition context_WithCancel : Go (Context * CancelFunc) :=
  new_scope None.

(** Modelled from the spec: [getContextWithTimeout] is defined in another file
    of package remote, which is not part of the sources at hand.  The design
    document (section 4.2) describes the scope of list, status and remove as
    "a context derived from the Client Handle's stored timeout". *)
Definition getContextWithTimeout (d : Duration) : Go (Context * CancelFunc) :=
  context_WithTimeout d.

(** Modelled from the spec: [getContextWithCancel] is defined in the same
    missing file.  The design document (section 4.2) describes the scope of
    pull and of the filesystem query as "unbounded-but-cancellable (no timeout
    applied)". *)
Definition getContextWithCancel : Go (Context * CancelFunc) :=
  context_WithCancel.

(** One call on the channel: the backend answers and moves on. *)
Definition invoke {A} (m : Method) (ctx : Context) (f : S -> A * S) : Go A :=
  fun w =>
    match f (backend w) with
    | (a, s') =>
        (Returns a,
         mkWorld s' (heap w) (trace w ++ [EvRPC m ctx]) (scopes w))
    end.

(** [grpc.DialContext(ctx, addr, dialOpts...)] *)
Definition DialContext (ctx : Context) (addr : string) (opts : list DialOption)
  : Go (ClientConn * option error) :=
  fun w =>
    match grpc_DialContext ctx addr opts (backend w) with
    | (a, s') => (Returns a, mkWorld s' (heap w) (trace w) (scopes w))
    end.

(** ** remote_image.go *)

(** [validateServiceConnection] tries to reach the remote image service
    through the CRI v1 API and fails if that is not possible. *)
Definition validateServiceConnection (r : nat) (conn : ClientConn)
    (endpoint : string) : Go (option error) :=
  h <- load r ;;
  '(ctx, cancel_) <- getContextWithTimeout (timeout h) ;;
  defer (cancel cancel_) (
    klog (InfoS 4 "Validating the CRI v1 API image version") ;;
    h <- load r ;;
    store r {| timeout := timeout h;
               imageClient := Some (NewImageServiceClient conn) |} ;;
    h <- load r ;;
    c <- deref (imageClient h) ;;
    '(_, err) <- invoke mImageFsInfo ctx
                   (client_ImageFsInfo c ctx Build_ImageFsInfoRequest) ;;
    match err with
    | None =>
        klog (InfoS 2 "Validated CRI v1 image API") ;;
        ret None
    | Some err =>
        if Code_eqb (status_Code err) Unimplemented then
          ret (Some (fmt_Errorf_w
                       ("CRI v1 image API is not implemented for endpoint "
                          ++ quote endpoint ++ ": " ++ Error err)%string err))
        else ret None
    end).

(** The dial options that [NewRemoteImageService] assembles before dialling. *)
Definition dialOpts (dialer : Dialer) (tp : option TracerProvider)
  : list DialOption :=
  let dialOpts :=
    [ WithTransportCredentials_insecure;
      WithContextDialer dialer;
      WithDefaultCallOptions_MaxCallRecvMsgSize maxMsgSize ] in
  if KubeletTracing then
    dialOpts ++ [ WithUnaryInterceptor_otelgrpc tp;
                  WithStreamInterceptor_otelgrpc tp ]
  else dialOpts.

(** [NewRemoteImageService] creates a new image manager service. *)
Definition NewRemoteImageService (endpoint : string)
    (connectionTimeout : Duration) (tp : option TracerProvider)
  : Go (option nat * option error) :=
  klog (InfoS 3 "Connecting to image service") ;;
  match GetAddressAndDialer endpoint with
  | (_, _, Some err) => ret (None, Some err)
  | (addr, dialer, None) =>
      '(ctx, cancel_) <- context_WithTimeout connectionTimeout ;;
      defer (cancel cancel_) (
        '(conn, err) <- DialContext ctx addr (dialOpts dialer tp) ;;
        match err with
        | Some err =>
            klog (ErrorS err "Connect remote image service failed"
                    ["address"; addr]) ;;
            ret (None, Some err)
        | None =>
            service <- alloc {| timeout := connectionTimeout;
                                imageClient := None |} ;;
            err <- validateServiceConnection service conn endpoint ;;
            match err with
            | Some err =>
                ret (None,
                     Some (fmt_Errorf_w
                             ("validate service connection: " ++ Error err)%string
                             err))
            | None => ret (Some service, None)
            end
        end)
  end.

Definition listImagesV1 (r : nat) (ctx : Context) (filter : option ImageFilter)
  : Go (slice (option Image) * option error) :=
  h <- load r ;;
  c <- deref (imageClient h) ;;
  '(resp, err) <- invoke mListImages ctx
                    (client_ListImages c ctx
                       {| ListImagesRequest_Filter := filter |}) ;;
  match err with
  | Some err =>
      klog (ErrorS err "ListImages with filter from image service failed"
              ["filter"]) ;;
      ret (None, Some err)
  | None =>
      resp <- deref resp ;;
      ret (ListImagesResponse_Images resp, None)
  end.

(** [ListImages] lists available images. *)
Definition ListImages (r : nat) (filter : option ImageFilter)
  : Go (slice (option Image) * option error) :=
  h <- load r ;;
  '(ctx, cancel_) <- getContextWithTimeout (timeout h) ;;
  defer (cancel cancel_) (listImagesV1 r ctx filter).

Definition imageStatusV1 (r : nat) (ctx : Context) (image : option ImageSpec)
    (verbose : bool) : Go (option ImageStatusResponse * option error) :=
  h <- load r ;;
  c <- deref (imageClient h) ;;
  '(resp, err) <- invoke mImageStatus ctx
                    (client_ImageStatus c ctx
                       {| ImageStatusRequest_Image := image;
                          ImageStatusRequest_Verbose := verbose |}) ;;
  match err with
  | Some err =>
      image <- deref image ;;
      klog (ErrorS err "Get ImageStatus from image service failed"
              ["image"; ImageSpec_Image image]) ;;
      ret (None, Some err)
  | None =>
      resp_ <- deref resp ;;
      match ImageStatusResponse_Image resp_ with
      | Some img =>
          if (Image_Id img =? "")%string || (Image_Size_ img =? 0)%N then
            image <- deref image ;;
            let errorMessage :=
              ("Id or size of image " ++ quote (ImageSpec_Image image)
                 ++ " is not set")%string in
            let err := errors_New errorMessage in
            klog (ErrorS err "ImageStatus failed"
                    ["image"; ImageSpec_Image image]) ;;
            ret (None, Some err)
          else ret (resp, None)
      | None => ret (resp, None)
      end
  end.

(** [ImageStatus] returns the status of the image. *)
Definition ImageStatus (r : nat) (image : option ImageSpec) (verbose : bool)
  : Go (option ImageStatusResponse * option error) :=
  h <- load r ;;
  '(ctx, cancel_) <- getContextWithTimeout (timeout h) ;;
  defer (cancel cancel_) (imageStatusV1 r ctx image verbose).

Definition pullImageV1 (r : nat) (ctx : Context) (image : option ImageSpec)
    (auth : option AuthConfig) (podSandboxConfig : option PodSandboxConfig)
  : Go (string * option error) :=
  h <- load r ;;
  c <- deref (imageClient h) ;;
  '(resp, err) <- invoke mPullImage ctx
                    (client_PullImage c ctx
                       {| PullImageRequest_Image := image;
                          PullImageRequest_Auth := auth;
                          PullImageRequest_SandboxConfig := podSandboxConfig |}) ;;
  match err with
  | Some err =>
      image <- deref image ;;
      klog (ErrorS err "PullImage from image service failed"
              ["image"; ImageSpec_Image image]) ;;
      ret ("", Some err)
  | None =>
      resp <- deref resp ;;
      if (PullImageResponse_ImageRef resp =? "")%string then
        image <- deref image ;;
        klog (ErrorS (errors_New "PullImage failed")
                "ImageRef of image is not set"
                ["image"; ImageSpec_Image image]) ;;
        let errorMessage :=
          ("imageRef of image " ++ quote (ImageSpec_Image image)
             ++ " is not set")%string in
        ret ("", Some (errors_New errorMessage))
      else ret (PullImageResponse_ImageRef resp, None)
  end.

(** [PullImage] pulls an image with authentication config. *)
Definition PullImage (r : nat) (image : option ImageSpec)
    (auth : option AuthConfig) (podSandboxConfig : option PodSandboxConfig)
  : Go (string * option error) :=
  '(ctx, cancel_) <- getContextWithCancel ;;
  defer (cancel cancel_) (pullImageV1 r ctx image auth podSandboxConfig).

(** [RemoveImage] removes the image. *)
Definition RemoveImage (r : nat) (image : option ImageSpec)
  : Go (option error) :=
  h <- load r ;;
  '(ctx, cancel_) <- getContextWithTimeout (timeout h) ;;
  defer (cancel cancel_) (
    h <- load r ;;
    c <- deref (imageClient h) ;;
    '(_, err) <- invoke mRemoveImage ctx
                   (client_RemoveImage c ctx
                      {| RemoveImageRequest_Image := image |}) ;;
    match err with
    | Some err =>
        image <- deref image ;;
        klog (ErrorS err "RemoveImage from image service failed"
                ["image"; ImageSpec_Image image]) ;;
        ret (Some err)
    | None => ret None
    end).

Definition imageFsInfoV1 (r : nat) (ctx : Context)
  : Go (slice (option FilesystemUsage) * option error) :=
  h <- load r ;;
  c <- deref (imageClient h) ;;
  '(resp, err) <- invoke mImageFsInfo ctx
                    (client_ImageFsInfo c ctx Build_ImageFsInfoRequest) ;;
  match err with
  | Some err =>
      klog (ErrorS err "ImageFsInfo from image service failed" []) ;;
      ret (None, Some err)
  | None => ret (GetImageFilesystems resp, None)
  end.

(** [ImageFsInfo] returns information of the filesystem that is used to store
    images.  No timeout is set, because the query takes time. *)
Definition ImageFsInfo (r : nat)
  : Go (slice (option FilesystemUsage) * option error) :=
  '(ctx, cancel_) <- getContextWithCancel ;;
  defer (cancel cancel_) (imageFsInfoV1 r ctx).

(** ** Observations on a run *)

(** A usable handle: the receiver points to a service struct whose client
    field is set. *)
Definition handle (w : World) (r : nat) (h : remoteImageService)
    (c : ImageServiceClient) : Prop :=
  nth_error (heap w) r = Some h /\ imageClient h = Some c.

(** The context that list, status and remove create in world [w]. *)
Definition timed (w : World) (h : remoteImageService) : Context :=
  mkContext (scopes w) (Some (timeout h)).

(** The context that pull and the filesystem query create in world [w]. *)
Definition untimed (w : World) : Context := mkContext (scopes w) None.

(** The calls sent on the channel, in order. *)
Fixpoint rpcs (evs : list Event) : list (Method * Context) :=
  match evs with
  | [] => []
  | EvRPC m c :: t => (m, c) :: rpcs t
  | _ :: t => rpcs t
  end.

Definition is_log (e : Event) : bool :=
  match e with
  | EvLog _ => true
  | _ => false
  end.

(** From [w] to [w'] exactly this happened: a scope with the given deadline
    was opened, one call of method [m] was sent under that scope, possibly
    some lines were logged, and the scope was released. *)
Definition bracketed (deadline : option Duration) (m : Method)
    (w w' : World) : Prop :=
  let ctx := mkContext (scopes w) deadline in
  exists logs,
    forallb is_log logs = true /\
    trace w' =
      trace w ++ [EvScope ctx; EvRPC m ctx] ++ logs ++ [EvRelease (ctx_id ctx)].

(** The scopes opened, and the scopes released, in order. *)
Fixpoint opened (evs : list Event) : list nat :=
  match evs with
  | [] => []
  | EvScope c :: t => ctx_id c :: opened t
  | _ :: t => opened t
  end.

Fixpoint released (evs : list Event) : list nat :=
  match evs with
  | [] => []
  | EvRelease id :: t => id :: released t
  | _ :: t => released t
  end.

(** Between [w] and [w'] every scope that was opened was also released. *)
Definition scopes_released (w w' : World) : Prop :=
  exists evs, trace w' = trace w ++ evs /\ opened evs = released evs.

(** The lines handed to klog, in order. *)
Fixpoint logged (evs : list Event) : list LogLine :=
  match evs with
  | [] => []
  | EvLog l :: t => l :: logged t
  | _ :: t => logged t
  end.

(** The contexts of the scopes opened, in order. *)
Fixpoint contexts (evs : list Event) : list Context :=
  match evs with
  | [] => []
  | EvScope c :: t => c :: contexts t
  | _ :: t => contexts t
  end.

(** What klog has seen of a call that ended with [err]: nothing when the call
    succeeded, one error line when it failed. *)
Definition logs_for (err : option error) (l : list LogLine) : Prop :=
  match err with
  | None => l = []
  | Some _ => exists e msg kv, l = [ErrorS e msg kv]
  end.

(** One invocation of the adapter by a caller. *)
Inductive Call :=
| CallListImages (filter : option ImageFilter)
| CallImageStatus (image : option ImageSpec) (verbose : bool)
| CallPullImage (image : option ImageSpec) (auth : option AuthConfig)
    (podSandboxConfig : option PodSandboxConfig)
| CallRemoveImage (image : option ImageSpec)
| CallImageFsInfo.

Definition method_of (cl : Call) : Method :=
  match cl with
  | CallListImages _ => mListImages
  | CallImageStatus _ _ => mImageStatus
  | CallPullImage _ _ _ => mPullImage
  | CallRemoveImage _ => mRemoveImage
  | CallImageFsInfo => mImageFsInfo
  end.

(** The deadline of the scope that the call opens on handle [h]. *)
Definition deadline_of (h : remoteImageService) (cl : Call) : option Duration :=
  match cl with
  | CallListImages _ | CallImageStatus _ _ | CallRemoveImage _ =>
      Some (timeout h)
  | CallPullImage _ _ _ | CallImageFsInfo => None
  end.

(** The world after a caller made the call on receiver [r], whether the call
    returned or panicked. *)
Definition perform (r : nat) (cl : Call) (w : World) : World :=
  match cl with
  | CallListImages filter => snd (ListImages r filter w)
  | CallImageStatus image verbose => snd (ImageStatus r image verbose w)
  | CallPullImage image auth cfg => snd (PullImage r image auth cfg w)
  | CallRemoveImage image => snd (RemoveImage r image w)
  | CallImageFsInfo => snd (ImageFsInfo r w)
  end.

(** The world after a caller made the calls one after the other. *)
Definition perform_all (r : nat) (cls : list Call) (w : World) : World :=
  fold_left (fun w cl => perform r cl w) cls w.

(** The calls that reach the channel when [cls] are made on handle [h],
    starting with [n] scopes already created. *)
Fixpoint expected_rpcs (h : remoteImageService) (n : nat) (cls : list Call)
  : list (Method * Context) :=
  match cls with
  | [] => []
  | cl :: t =>
      (method_of cl, mkContext n (deadline_of h cl))
        :: expected_rpcs h (Datatypes.S n) t
  end.

End Adapter.

(** [sub] occurs in [s]. *)
Definition contains (s sub : string) : Prop :=
  exists pre post, s = (pre ++ sub ++ post)%string.

(** ** A scripted backend, for concrete runs *)

(** The [%q] rendering of a string in which nothing needs escaping. *)
Definition quote_plain (s : string) : string :=
  (String "034"%char s ++ String "034"%char "")%string.

(** What the scripted backend answers to each of the five calls. *)
Record Script := {
  on_ListImages : option ListImagesResponse * option error;
  on_ImageStatus : option ImageStatusResponse * option error;
  on_PullImage : option PullImageResponse * option error;
  on_RemoveImage : option RemoveImageResponse * option error;
  on_ImageFsInfo : option ImageFsInfoResponse * option error
}.

(** A client over a backend that counts the calls it has served. *)
Definition scripted (sc : Script) : ImageServiceClient nat := {|
  client_ListImages := fun _ _ n => (on_ListImages sc, Datatypes.S n);
  client_ImageStatus := fun _ _ n => (on_ImageStatus sc, Datatypes.S n);
  client_PullImage := fun _ _ n => (on_PullImage sc, Datatypes.S n);
  client_RemoveImage := fun _ _ n => (on_RemoveImage sc, Datatypes.S n);
  client_ImageFsInfo := fun _ _ n => (on_ImageFsInfo sc, Datatypes.S n)
|}.

Definition two_seconds : Duration := 2000000000%Z.

(** A world holding one service struct, which talks to the scripted backend. *)
Definition world_of (sc : Script) : World nat :=
  mkWorld 0 [ {| timeout := two_seconds; imageClient := Some (scripted sc) |} ]
    [] 0.

Definition busybox : ImageSpec :=
  {| ImageSpec_Image := "busybox:1.36"; ImageSpec_Annotations := [] |}.

Definition image_of (id : string) (size : N) : Image :=
  {| Image_Id := id; Image_RepoTags := ["busybox:1.36"];
     Image_RepoDigests := []; Image_Size_ := size; Image_Username := "";
     Image_Spec := None; Image_Pinned := false |}.

Definition unavailable : error := grpc_status Unavailable "connection refused".
Definition unimplemented : error :=
  grpc_status Unimplemented "unknown service runtime.v1.ImageService".

(** A backend that answers every call successfully. *)
Definition healthy : Script := {|
  on_ListImages :=
    (Some {| ListImagesResponse_Images :=
               Some [Some (image_of "sha256:abc" 4096)] |}, None);
  on_ImageStatus :=
    (Some {| ImageStatusResponse_Image := Some (image_of "sha256:abc" 4096);
             ImageStatusResponse_Info := [] |}, None);
  on_PullImage :=
    (Some {| PullImageResponse_ImageRef := "sha256:abc" |}, None);
  on_RemoveImage := (Some Build_RemoveImageResponse, None);
  on_ImageFsInfo :=
    (Some {| ImageFsInfoResponse_ImageFilesystems := Some [] |}, None)
|}.

(** A backend that fails every call with the same error. *)
Definition failing (e : error) : Script := {|
  on_ListImages := (None, Some e);
  on_ImageStatus := (None, Some e);
  on_PullImage := (None, Some e);
  on_RemoveImage := (None, Some e);
  on_ImageFsInfo := (None, Some e)
|}.

(** A healthy backend, except for its answer to [ImageStatus]. *)
Definition with_status (resp : ImageStatusResponse) : Script := {|
  on_ListImages := on_ListImages healthy;
  on_ImageStatus := (Some resp, None);
  on_PullImage := on_PullImage healthy;
  on_RemoveImage := on_RemoveImage healthy;
  on_ImageFsInfo := on_ImageFsInfo healthy
|}.

(** A healthy backend, except for its answer to [PullImage]. *)
Definition with_pull (ref : string) : Script := {|
  on_ListImages := on_ListImages healthy;
  on_ImageStatus := on_ImageStatus healthy;
  on_PullImage := (Some {| PullImageResponse_ImageRef := ref |}, None);
  on_RemoveImage := on_RemoveImage healthy;
  on_ImageFsInfo := on_ImageFsInfo healthy
|}.

(** The constructor against a scripted backend: the endpoint is its own
    address, dialling succeeds, and the connection is the script. *)
Definition connect (sc : Script) (endpoint : string) (d : Duration)
  : Go nat (option nat * option error) :=
  NewRemoteImageService quote_plain
    (fun ep : string => (ep, tt, None))
    (fun _ _ (_ : list (DialOption unit unit)) n => ((sc, None), n))
    scripted false 16777216%Z endpoint d None.

(** The service struct of [world_of sc]. *)
Definition handle_of (sc : Script) : remoteImageService nat :=
  {| timeout := two_seconds; imageClient := Some (scripted sc) |}.

(** A status answer whose record has an identifier but size zero. *)
Definition zero_size_status : ImageStatusResponse :=
  {| ImageStatusResponse_Image := Some (image_of "sha256:abc" 0);
     ImageStatusResponse_Info := [] |}.

(** A status answer for an image that the backend does not have. *)
Definition no_record_status : ImageStatusResponse :=
  {| ImageStatusResponse_Image := None;
     ImageStatusResponse_Info := [("reason", "image not found")] |}.

(** A client that hands back nothing at all: a nil answer and a nil error. *)
Definition silent : Script := {|
  on_ListImages := (None, None);
  on_ImageStatus := (None, None);
  on_PullImage := (None, None);
  on_RemoveImage := (None, None);
  on_ImageFsInfo := (None, None)
|}.

(** The constructor against a scripted backend, with a resolver and a dialler
    that fail as told. *)
Definition connect_via (resolve_err dial_err : option error) (sc : Script)
    (endpoint : string) (d : Duration) : Go nat (option nat * option error) :=
  NewRemoteImageService quote_plain
    (fun ep : string => (ep, tt, resolve_err))
    (fun _ _ (_ : list (DialOption unit unit)) n => ((sc, dial_err), n))
    scripted false 16777216%Z endpoint d None.

Definition bad_endpoint : error := errors_New "endpoint is not set".

(** Three calls that a caller makes in a row. *)
Definition three_calls : list Call :=
  [ CallListImages None;
    CallPullImage (Some busybox) None None;
    CallImageStatus None true ].

(** The [%q] rendering (strconv.Quote) of a string whose characters are all
    printable ASCII, 0x20 to 0x7e: a double quote and a backslash get a
    backslash in front, every other such character is kept, and the result is
    wrapped in double quotes.  Strings with other characters are outside the
    scope of this definition. *)
Fixpoint escape_printable (s : string) : string :=
  match s with
  | EmptyString => EmptyString
  | String a t =>
      if (Ascii.eqb a "034" || Ascii.eqb a "092")%bool
      then String "092"%char (String a (escape_printable t))
      else String a (escape_printable t)
  end.

Definition quote_printable (s : string) : string :=
  String "034"%char (escape_printable s ++ String "034"%char "")%string.

(** Whether [sub] occurs in [s], by trying every position. *)
Fixpoint occurs (sub s : string) : bool :=
  if prefix sub s then true
  else match s with
       | EmptyString => false
       | String _ t => occurs sub t
       end.

(** An image reference with a backslash in it. *)
Definition backslashed : ImageSpec :=
  {| ImageSpec_Image := "registry\busybox"; ImageSpec_Annotations := [] |}.

Definition containerd_sock : string := "unix:///run/containerd/containerd.sock".

Definition empty_world : World nat := mkWorld 0 [] [] 0.

(** * Properties *)

(** ** Proof steps for runs of the adapter *)

Ltac unfold_ops :=
  cbv [ListImages listImagesV1 ImageStatus imageStatusV1 PullImage pullImageV1
       RemoveImage ImageFsInfo imageFsInfoV1 getContextWithTimeout
       getContextWithCancel context_WithTimeout context_WithCancel new_scope
       defer cancel emit klog invoke load deref panic
       bind ret Monad_Go Go_bind Go_ret timed untimed] in *.

Ltac step_with Hr Hc :=
  repeat (progress (cbn [heap trace backend scopes fst snd];
                    try rewrite Hr; try rewrite Hc)).

Ltac use_handle H :=
  let Hr := fresh "Hr" in
  let Hc := fresh "Hc" in
  destruct H as [Hr Hc]; unfold_ops; step_with Hr Hc.

Ltac normalise_trace :=
  cbn [heap trace backend scopes fst snd ctx_id]; rewrite <- ?app_assoc;
  cbn [app].

(** Splits on every test that the run still depends on. *)
Ltac split_run :=
  repeat (match goal with
          | |- context [match ?x with _ => _ end] =>
              lazymatch x with
              | context [match _ with _ => _ end] => fail
              | _ => destruct x eqn:?
              end
          end; cbn [heap trace backend scopes fst snd]).

(** ** Strings *)

Lemma append_assoc (a b c : string) :
  ((a ++ b) ++ c = a ++ (b ++ c))%string.
Proof.
  induction a as [| x a IH]; [reflexivity |].
  cbn [append]. rewrite IH. reflexivity.
Qed.

(** A text that carries the plain [%q] rendering of [s] carries [s]. *)
Lemma contains_quote_plain (pre s post : string) :
  contains (pre ++ quote_plain s ++ post) s.
Proof.
  exists (pre ++ String "034"%char "")%string,
         (String "034"%char "" ++ post)%string.
  unfold quote_plain. rewrite !append_assoc. reflexivity.
Qed.

Section Operations.

Variable S : Type.
Variable quote : string -> string.

Implicit Types (w : World S) (r : nat) (h : remoteImageService S)
  (c : ImageServiceClient S).

(** *** Helper facts *)

Lemma unset_test (img : Image) :
  Image_Id img = "" \/ Image_Size_ img = 0%N ->
  ((Image_Id img =? "")%string || (Image_Size_ img =? 0)%N) = true.
Proof.
  intros [H | H]; rewrite H.
  - reflexivity.
  - rewrite N.eqb_refl. apply orb_true_r.
Qed.

(** *** Image status *)

(** Claim C1, as the code has it.  For a call that passes an image spec:
    when the backend answers the [ImageStatus] call without error and with an
    image record whose identifier is empty or whose size is zero,
    [ImageStatus] answers a nil response together with an error that it
    creates itself with [errors.New]; the backend's record is not handed on.
    (The error text is built from [image.Image], so the call has to pass an
    image spec.) *)
Theorem ImageStatus_rejects_unset_record
    w r h c (image : ImageSpec) verbose resp img s' :
  handle w r h c ->
  client_ImageStatus c (timed w h)
    {| ImageStatusRequest_Image := Some image;
       ImageStatusRequest_Verbose := verbose |} (backend w)
    = (Some resp, None, s') ->
  ImageStatusResponse_Image resp = Some img ->
  Image_Id img = "" \/ Image_Size_ img = 0%N ->
  fst (ImageStatus quote r (Some image) verbose w) =
    Returns (None,
             Some (errors_New ("Id or size of image "
                                 ++ quote (ImageSpec_Image image)
                                 ++ " is not set")%string)).
Proof.
  intros H Hcall Himg Hunset. use_handle H.
  rewrite Hcall. cbn. rewrite Himg, (unset_test _ Hunset). reflexivity.
Qed.

(** Claim C4, as the code has it.  When the backend answers an [ImageStatus]
    call without error and with a response whose image record is nil,
    [ImageStatus] succeeds and hands on that very response (which is not
    nil), with a nil error. *)
Theorem ImageStatus_absent_record_returns_response
    w r h c image verbose resp s' :
  handle w r h c ->
  client_ImageStatus c (timed w h)
    {| ImageStatusRequest_Image := image;
       ImageStatusRequest_Verbose := verbose |} (backend w)
    = (Some resp, None, s') ->
  ImageStatusResponse_Image resp = None ->
  fst (ImageStatus quote r image verbose w) = Returns (Some resp, None).
Proof.
  intros H Hcall Himg. use_handle H.
  rewrite Hcall. cbn. rewrite Himg. reflexivity.
Qed.

(** *** Pull *)

(** Claim C3, as the code has it.  When the backend answers a [PullImage]
    call without error: if the reference in the answer is empty and the call
    passes an image spec, [PullImage] fails with an error that it creates
    itself with [errors.New], whose text is "imageRef of image %q is not set"
    filled in with the requested image reference; the text so carries the
    reference as the [%q] verb renders it, and the reference itself, letter
    for letter, whenever that rendering only wraps it in double quotes.  If
    the reference in the answer is not empty, [PullImage] returns exactly
    that reference and a nil error, for any image argument. *)
Theorem PullImage_checks_reference
    w r h c image auth podSandboxConfig resp s' :
  handle w r h c ->
  client_PullImage c (untimed w)
    {| PullImageRequest_Image := image;
       PullImageRequest_Auth := auth;
       PullImageRequest_SandboxConfig := podSandboxConfig |} (backend w)
    = (Some resp, None, s') ->
  (PullImageResponse_ImageRef resp = "" ->
   forall spec, image = Some spec ->
   exists msg,
     fst (PullImage quote r image auth podSandboxConfig w) =
       Returns ("", Some (errors_New msg)) /\
     msg = ("imageRef of image " ++ quote (ImageSpec_Image spec)
              ++ " is not set")%string /\
     contains msg (quote (ImageSpec_Image spec)) /\
     (quote (ImageSpec_Image spec) = quote_plain (ImageSpec_Image spec) ->
      contains msg (ImageSpec_Image spec))) /\
  (PullImageResponse_ImageRef resp <> "" ->
   fst (PullImage quote r image auth podSandboxConfig w) =
     Returns (PullImageResponse_ImageRef resp, None)).
Proof.
  intros H Hcall. use_handle H. rewrite Hcall. cbn. split.
  - intros Hempty spec ->. rewrite Hempty. cbn. eexists.
    split; [reflexivity |]. split; [reflexivity |]. split.
    + exists "imageRef of image ", " is not set". reflexivity.
    + intros Hplain. rewrite Hplain.
      exact (contains_quote_plain "imageRef of image "
               (ImageSpec_Image spec) " is not set").
  - intros Hset. apply String.eqb_neq in Hset. rewrite Hset. reflexivity.
Qed.

(** *** Remove *)

(** Claim C5, as the code has it.  For every argument, [RemoveImage] returns
    a nil error if and only if the backend's [RemoveImage] call returned a nil
    error; and when the backend's call returned an error and the call passes
    an image spec, [RemoveImage] returns that same error value. *)
Theorem RemoveImage_returns_backend_error w r h c image resp err s' :
  handle w r h c ->
  client_RemoveImage c (timed w h)
    {| RemoveImageRequest_Image := image |} (backend w)
    = (resp, err, s') ->
  (fst (RemoveImage r image w) = Returns None <-> err = None) /\
  (forall spec e,
     image = Some spec -> err = Some e ->
     fst (RemoveImage r image w) = Returns (Some e)).
Proof.
  intros H Hcall. use_handle H. rewrite Hcall. split.
  - destruct err as [e |]; [| split; reflexivity].
    destruct image; cbn; split; discriminate.
  - intros spec e -> ->. reflexivity.
Qed.

(** *** List *)

(** Claim C6.  For every filter, nil included, when the backend answers the
    [ListImages] call without error, [ListImages] returns the slice of image
    records of that answer as it is (same records, same order) and a nil
    error. *)
Theorem ListImages_returns_backend_collection w r h c filter resp s' :
  handle w r h c ->
  client_ListImages c (timed w h) {| ListImagesRequest_Filter := filter |}
    (backend w) = (Some resp, None, s') ->
  fst (ListImages r filter w) = Returns (ListImagesResponse_Images resp, None).
Proof.
  intros H Hcall. use_handle H. rewrite Hcall. reflexivity.
Qed.

(** *** Scopes *)

Lemma rpcs_app (a b : list Event) : rpcs (a ++ b) = rpcs a ++ rpcs b.
Proof.
  induction a as [| e a IH]; [reflexivity |].
  destruct e; cbn [app rpcs]; rewrite IH; reflexivity.
Qed.

Ltac close_released :=
  first
    [ exists []; split; [symmetry; apply app_nil_r | reflexivity]
    | eexists; split; [rewrite <- ?app_assoc; reflexivity | reflexivity] ].

Ltac close_bracketed :=
  first
    [ exists []; split; [reflexivity | normalise_trace; reflexivity]
    | eexists [_]; split; cycle 1;
      [normalise_trace; reflexivity | reflexivity] ].

(** Claim C7.  On every exit path of every operation (a normal return, an
    error return or a panic) each scope that the operation opened has been
    released.  On a usable handle, [ListImages], [ImageStatus] and
    [RemoveImage] open one scope whose deadline is the [timeout] field of the
    handle, send their one call under it and release it; [PullImage] and
    [ImageFsInfo] do the same under a scope that has no deadline. *)
Theorem operations_run_in_released_scopes w r :
  ((forall filter, scopes_released w (snd (ListImages r filter w))) /\
   (forall image verbose,
      scopes_released w (snd (ImageStatus quote r image verbose w))) /\
   (forall image, scopes_released w (snd (RemoveImage r image w))) /\
   (forall image auth podSandboxConfig,
      scopes_released w
        (snd (PullImage quote r image auth podSandboxConfig w))) /\
   scopes_released w (snd (ImageFsInfo r w))) /\
  (forall h c, handle w r h c ->
   (forall filter,
      bracketed (Some (timeout h)) mListImages w
        (snd (ListImages r filter w))) /\
   (forall image verbose,
      bracketed (Some (timeout h)) mImageStatus w
        (snd (ImageStatus quote r image verbose w))) /\
   (forall image,
      bracketed (Some (timeout h)) mRemoveImage w
        (snd (RemoveImage r image w))) /\
   (forall image auth podSandboxConfig,
      bracketed None mPullImage w
        (snd (PullImage quote r image auth podSandboxConfig w))) /\
   bracketed None mImageFsInfo w (snd (ImageFsInfo r w))).
Proof.
  split.
  - repeat split; intros; unfold scopes_released; unfold_ops;
      split_run; close_released.
  - intros h c H. unfold bracketed.
    repeat split; intros; use_handle H; split_run; close_bracketed.
Qed.

(** *** One call, errors handed on *)

(** Claim C9, as the code has it.  On a usable handle each of the five
    operations sends exactly one call on the channel, whatever the backend
    answers and whatever the arguments; and when the backend's answer carries
    an error, [ListImages] and [ImageFsInfo] return that same error value
    with the zero value as result, and so do [ImageStatus], [PullImage] and
    [RemoveImage] when the call passes an image spec. *)
Theorem one_call_and_backend_errors_unchanged w r h c :
  handle w r h c ->
  (forall filter,
     rpcs (trace (snd (ListImages r filter w)))
       = rpcs (trace w) ++ [(mListImages, timed w h)] /\
     forall resp e s',
       client_ListImages c (timed w h)
         {| ListImagesRequest_Filter := filter |} (backend w)
         = (resp, Some e, s') ->
       fst (ListImages r filter w) = Returns (None, Some e)) /\
  (forall image verbose,
     rpcs (trace (snd (ImageStatus quote r image verbose w)))
       = rpcs (trace w) ++ [(mImageStatus, timed w h)]) /\
  (forall (image : ImageSpec) verbose resp e s',
     client_ImageStatus c (timed w h)
       {| ImageStatusRequest_Image := Some image;
          ImageStatusRequest_Verbose := verbose |} (backend w)
       = (resp, Some e, s') ->
     fst (ImageStatus quote r (Some image) verbose w)
       = Returns (None, Some e)) /\
  (forall image auth podSandboxConfig,
     rpcs (trace (snd (PullImage quote r image auth podSandboxConfig w)))
       = rpcs (trace w) ++ [(mPullImage, untimed w)]) /\
  (forall (image : ImageSpec) auth podSandboxConfig resp e s',
     client_PullImage c (untimed w)
       {| PullImageRequest_Image := Some image;
          PullImageRequest_Auth := auth;
          PullImageRequest_SandboxConfig := podSandboxConfig |} (backend w)
       = (resp, Some e, s') ->
     fst (PullImage quote r (Some image) auth podSandboxConfig w)
       = Returns ("", Some e)) /\
  (forall image,
     rpcs (trace (snd (RemoveImage r image w)))
       = rpcs (trace w) ++ [(mRemoveImage, timed w h)]) /\
  (forall (image : ImageSpec) resp e s',
     client_RemoveImage c (timed w h)
       {| RemoveImageRequest_Image := Some image |} (backend w)
       = (resp, Some e, s') ->
     fst (RemoveImage r (Some image) w) = Returns (Some e)) /\
  rpcs (trace (snd (ImageFsInfo r w)))
    = rpcs (trace w) ++ [(mImageFsInfo, untimed w)] /\
  (forall resp e s',
     client_ImageFsInfo c (untimed w) Build_ImageFsInfoRequest (backend w)
       = (resp, Some e, s') ->
     fst (ImageFsInfo r w) = Returns (None, Some e)).
Proof.
  intros H.
  repeat match goal with
         | |- _ /\ _ => split
         | |- forall _, _ => intro
         end;
    use_handle H;
    try match goal with
        | Hcall : _ = (_, Some _, _) |- _ => rewrite Hcall; reflexivity
        end;
    split_run; rewrite !rpcs_app; cbn [rpcs]; rewrite ?app_nil_r;
    reflexivity.
Qed.

(** *** Results that come with an error *)

(** Claim C10.  Whenever an operation returns a non-nil error, be it the
    backend's or one made up while checking the answer, the result next to it
    is the zero value: a nil slice for [ListImages] and [ImageFsInfo], a nil
    response for [ImageStatus], the empty string for [PullImage]. *)
Theorem results_with_an_error_are_zero w r :
  (forall filter v e,
     fst (ListImages r filter w) = Returns (v, Some e) -> v = None) /\
  (forall v e,
     fst (ImageFsInfo r w) = Returns (v, Some e) -> v = None) /\
  (forall image verbose v e,
     fst (ImageStatus quote r image verbose w) = Returns (v, Some e) ->
     v = None) /\
  (forall image auth podSandboxConfig v e,
     fst (PullImage quote r image auth podSandboxConfig w)
       = Returns (v, Some e) ->
     v = "").
Proof.
  repeat split; intros until e; unfold_ops; split_run; cbn [fst];
    intros Hres; inversion Hres; reflexivity.
Qed.

(** *** The heap *)

Lemma operations_keep_heap w r :
  (forall filter, heap (snd (ListImages r filter w)) = heap w) /\
  (forall image verbose,
     heap (snd (ImageStatus quote r image verbose w)) = heap w) /\
  (forall image auth podSandboxConfig,
     heap (snd (PullImage quote r image auth podSandboxConfig w)) = heap w) /\
  (forall image, heap (snd (RemoveImage r image w)) = heap w) /\
  heap (snd (ImageFsInfo r w)) = heap w.
Proof.
  repeat split; intros; unfold_ops; split_run; reflexivity.
Qed.

(** *** Further facts about the operations *)

Lemma logged_app (a b : list Event) : logged (a ++ b) = logged a ++ logged b.
Proof.
  induction a as [| e a IH]; [reflexivity |].
  destruct e; cbn [app logged]; rewrite IH; reflexivity.
Qed.

Lemma opened_app (a b : list Event) : opened (a ++ b) = opened a ++ opened b.
Proof.
  induction a as [| e a IH]; [reflexivity |].
  destruct e; cbn [app opened]; rewrite IH; reflexivity.
Qed.

Lemma released_app (a b : list Event) :
  released (a ++ b) = released a ++ released b.
Proof.
  induction a as [| e a IH]; [reflexivity |].
  destruct e; cbn [app released]; rewrite IH; reflexivity.
Qed.

Lemma contexts_app (a b : list Event) :
  contexts (a ++ b) = contexts a ++ contexts b.
Proof.
  induction a as [| e a IH]; [reflexivity |].
  destruct e; cbn [app contexts]; rewrite IH; reflexivity.
Qed.

Lemma only_logs (logs : list Event) :
  forallb is_log logs = true ->
  rpcs logs = [] /\ opened logs = [] /\ released logs = [].
Proof.
  induction logs as [| e logs IH]; [repeat split |].
  destruct e; cbn [forallb is_log andb]; try discriminate.
  intros H. apply IH in H. exact H.
Qed.

Lemma unset_test_false (img : Image) :
  ((Image_Id img =? "")%string || (Image_Size_ img =? 0)%N) = false <->
  Image_Id img <> "" /\ Image_Size_ img <> 0%N.
Proof.
  rewrite orb_false_iff, String.eqb_neq, N.eqb_neq. reflexivity.
Qed.

(** On a usable handle every call is bracketed by its own scope. *)
Lemma perform_bracketed w r h c cl :
  handle w r h c ->
  bracketed (deadline_of h cl) (method_of cl) w (perform quote r cl w).
Proof.
  intros H. unfold bracketed.
  destruct cl; cbv [perform deadline_of method_of]; use_handle H; split_run;
    close_bracketed.
Qed.

(** A call leaves the handle as it was and uses up one scope identity. *)
Lemma perform_keeps_handle w r h c cl :
  handle w r h c ->
  handle (perform quote r cl w) r h c /\
  scopes (perform quote r cl w) = Datatypes.S (scopes w).
Proof.
  intros H. pose proof H as [Hr' Hc'].
  destruct cl; cbv [perform handle]; use_handle H; split_run;
    (split; [split; first [assumption | reflexivity] | reflexivity]).
Qed.

(** Property X10.  A record whose identifier and size are both set passes the check: the
    backend's response is returned as it is. *)
Theorem ImageStatus_accepts_set_record
    w r h c image verbose resp img s' :
  handle w r h c ->
  client_ImageStatus c (timed w h)
    {| ImageStatusRequest_Image := image;
       ImageStatusRequest_Verbose := verbose |} (backend w)
    = (Some resp, None, s') ->
  ImageStatusResponse_Image resp = Some img ->
  Image_Id img <> "" ->
  Image_Size_ img <> 0%N ->
  fst (ImageStatus quote r image verbose w) = Returns (Some resp, None).
Proof.
  intros H Hcall Himg Hid Hsize. use_handle H.
  rewrite Hcall. cbn. rewrite Himg.
  rewrite (proj2 (unset_test_false img) (conj Hid Hsize)). reflexivity.
Qed.

(** Property X11.  Whatever the handle and the backend: when [ImageStatus] returns a nil
    error, its response is not nil, and the record inside, if there is one,
    has a non-empty identifier and a non-zero size. *)
Theorem ImageStatus_nil_error_means_checked_response
    w r image verbose v :
  fst (ImageStatus quote r image verbose w) = Returns (v, None) ->
  exists resp,
    v = Some resp /\
    forall img, ImageStatusResponse_Image resp = Some img ->
                Image_Id img <> "" /\ Image_Size_ img <> 0%N.
Proof.
  unfold_ops. split_run; cbn [fst]; intros Hres; inversion Hres; subst;
    eexists; (split; [reflexivity |]); intros img Himg.
  - match goal with
    | Hb : (_ || _)%bool = false |- _ => apply unset_test_false in Hb
    end.
    match goal with
    | Hb : Image_Id ?a <> "" /\ _ |- _ =>
        assert (a = img) by congruence; subst; exact Hb
    end.
  - congruence.
Qed.

(** Property X12.  Whatever the handle and the backend: when [PullImage] returns a nil
    error, the reference it returns is not empty. *)
Theorem PullImage_nil_error_means_reference
    w r image auth podSandboxConfig v :
  fst (PullImage quote r image auth podSandboxConfig w) = Returns (v, None) ->
  v <> "".
Proof.
  unfold_ops. split_run; cbn [fst]; intros Hres; inversion Hres; subst.
  apply String.eqb_neq. assumption.
Qed.

(** Property X13.  When the client hands back a nil response together with a nil error,
    [ImageFsInfo] (which reads the answer through a nil-safe getter) returns a
    nil slice and [RemoveImage] (which ignores the answer) returns nil, while
    [ListImages], [ImageStatus] and [PullImage] read a field of the answer
    and panic. *)
Theorem nil_answer_without_error w r h c :
  handle w r h c ->
  (forall s',
     client_ImageFsInfo c (untimed w) Build_ImageFsInfoRequest (backend w)
       = (None, None, s') ->
     fst (ImageFsInfo r w) = Returns (None, None)) /\
  (forall image s',
     client_RemoveImage c (timed w h)
       {| RemoveImageRequest_Image := image |} (backend w)
       = (None, None, s') ->
     fst (RemoveImage r image w) = Returns None) /\
  (forall filter s',
     client_ListImages c (timed w h)
       {| ListImagesRequest_Filter := filter |} (backend w)
       = (None, None, s') ->
     fst (ListImages r filter w) = Panics) /\
  (forall image verbose s',
     client_ImageStatus c (timed w h)
       {| ImageStatusRequest_Image := image;
          ImageStatusRequest_Verbose := verbose |} (backend w)
       = (None, None, s') ->
     fst (ImageStatus quote r image verbose w) = Panics) /\
  (forall image auth podSandboxConfig s',
     client_PullImage c (untimed w)
       {| PullImageRequest_Image := image;
          PullImageRequest_Auth := auth;
          PullImageRequest_SandboxConfig := podSandboxConfig |} (backend w)
       = (None, None, s') ->
     fst (PullImage quote r image auth podSandboxConfig w) = Panics).
Proof.
  intros H.
  repeat match goal with
         | |- _ /\ _ => split
         | |- forall _, _ => intro
         end;
    use_handle H;
    match goal with
    | Hcall : _ = (None, None, _) |- _ => rewrite Hcall; reflexivity
    end.
Qed.

(** Property X14.  On a usable handle no operation panics, provided that the caller passes
    an image spec where one is asked for and that the client never hands back
    a nil response together with a nil error.  [ImageFsInfo] needs neither
    condition. *)
Theorem operations_return w r h c :
  handle w r h c ->
  (forall filter resp err s',
     client_ListImages c (timed w h)
       {| ListImagesRequest_Filter := filter |} (backend w)
       = (resp, err, s') ->
     (err = None -> resp <> None) ->
     exists v, fst (ListImages r filter w) = Returns v) /\
  (forall (image : ImageSpec) verbose resp err s',
     client_ImageStatus c (timed w h)
       {| ImageStatusRequest_Image := Some image;
          ImageStatusRequest_Verbose := verbose |} (backend w)
       = (resp, err, s') ->
     (err = None -> resp <> None) ->
     exists v, fst (ImageStatus quote r (Some image) verbose w) = Returns v) /\
  (forall (image : ImageSpec) auth podSandboxConfig resp err s',
     client_PullImage c (untimed w)
       {| PullImageRequest_Image := Some image;
          PullImageRequest_Auth := auth;
          PullImageRequest_SandboxConfig := podSandboxConfig |} (backend w)
       = (resp, err, s') ->
     (err = None -> resp <> None) ->
     exists v,
       fst (PullImage quote r (Some image) auth podSandboxConfig w)
         = Returns v) /\
  (forall (image : ImageSpec),
     exists v, fst (RemoveImage r (Some image) w) = Returns v) /\
  (exists v, fst (ImageFsInfo r w) = Returns v).
Proof.
  intros H.
  repeat match goal with
         | |- _ /\ _ => split
         | |- forall _, _ => intro
         end;
    use_handle H;
    try match goal with
        | Hcall : _ = (_, _, _) |- _ => rewrite Hcall
        end;
    split_run; cbn [fst];
    solve [ eexists; reflexivity
          | exfalso;
            match goal with
            | Hwf : None = None -> None <> None |- _ =>
                exact (Hwf eq_refl eq_refl)
            end ].
Qed.

(** Property X15.  A nil image spec turns every backend error into a panic: the three
    operations that take an image log [image.Image] before they return the
    error. *)
Theorem nil_image_spec_panics_on_backend_error w r h c :
  handle w r h c ->
  (forall verbose resp e s',
     client_ImageStatus c (timed w h)
       {| ImageStatusRequest_Image := None;
          ImageStatusRequest_Verbose := verbose |} (backend w)
       = (resp, Some e, s') ->
     fst (ImageStatus quote r None verbose w) = Panics) /\
  (forall auth podSandboxConfig resp e s',
     client_PullImage c (untimed w)
       {| PullImageRequest_Image := None;
          PullImageRequest_Auth := auth;
          PullImageRequest_SandboxConfig := podSandboxConfig |} (backend w)
       = (resp, Some e, s') ->
     fst (PullImage quote r None auth podSandboxConfig w) = Panics) /\
  (forall resp e s',
     client_RemoveImage c (timed w h)
       {| RemoveImageRequest_Image := None |} (backend w)
       = (resp, Some e, s') ->
     fst (RemoveImage r None w) = Panics).
Proof.
  intros H.
  repeat match goal with
         | |- _ /\ _ => split
         | |- forall _, _ => intro
         end;
    use_handle H;
    match goal with
    | Hcall : _ = (_, Some _, _) |- _ => rewrite Hcall; reflexivity
    end.
Qed.

(** Property X16.  The backend is moved on by exactly the one call, made with the request
    that carries the caller's arguments unchanged: its state after an
    operation is its state after that call, whether the operation then
    returns, fails or panics. *)
Theorem backend_sees_the_callers_request w r h c :
  handle w r h c ->
  (forall filter,
     backend (snd (ListImages r filter w))
       = snd (client_ListImages c (timed w h)
                {| ListImagesRequest_Filter := filter |} (backend w))) /\
  (forall image verbose,
     backend (snd (ImageStatus quote r image verbose w))
       = snd (client_ImageStatus c (timed w h)
                {| ImageStatusRequest_Image := image;
                   ImageStatusRequest_Verbose := verbose |} (backend w))) /\
  (forall image auth podSandboxConfig,
     backend (snd (PullImage quote r image auth podSandboxConfig w))
       = snd (client_PullImage c (untimed w)
                {| PullImageRequest_Image := image;
                   PullImageRequest_Auth := auth;
                   PullImageRequest_SandboxConfig := podSandboxConfig |}
                (backend w))) /\
  (forall image,
     backend (snd (RemoveImage r image w))
       = snd (client_RemoveImage c (timed w h)
                {| RemoveImageRequest_Image := image |} (backend w))) /\
  backend (snd (ImageFsInfo r w))
    = snd (client_ImageFsInfo c (untimed w) Build_ImageFsInfoRequest
             (backend w)).
Proof.
  intros H.
  repeat match goal with
         | |- _ /\ _ => split
         | |- forall _, _ => intro
         end;
    use_handle H; split_run; reflexivity.
Qed.

Ltac close_logs :=
  rewrite ?logged_app; cbn [logged]; rewrite ?app_nil_r;
  first
    [ exists []; split; [symmetry; apply app_nil_r | reflexivity]
    | eexists; split; [reflexivity | do 3 eexists; reflexivity] ].

(** Property X17.  Whatever the handle and the backend: an operation that returns with a
    nil error has logged nothing, and an operation that returns with an error
    has logged exactly one line, an error line. *)
Theorem errors_are_logged_once w r :
  (forall filter v err,
     fst (ListImages r filter w) = Returns (v, err) ->
     exists l, logged (trace (snd (ListImages r filter w)))
                 = logged (trace w) ++ l /\ logs_for err l) /\
  (forall image verbose v err,
     fst (ImageStatus quote r image verbose w) = Returns (v, err) ->
     exists l, logged (trace (snd (ImageStatus quote r image verbose w)))
                 = logged (trace w) ++ l /\ logs_for err l) /\
  (forall image auth podSandboxConfig v err,
     fst (PullImage quote r image auth podSandboxConfig w)
       = Returns (v, err) ->
     exists l,
       logged (trace (snd (PullImage quote r image auth podSandboxConfig w)))
         = logged (trace w) ++ l /\ logs_for err l) /\
  (forall image err,
     fst (RemoveImage r image w) = Returns err ->
     exists l, logged (trace (snd (RemoveImage r image w)))
                 = logged (trace w) ++ l /\ logs_for err l) /\
  (forall v err,
     fst (ImageFsInfo r w) = Returns (v, err) ->
     exists l, logged (trace (snd (ImageFsInfo r w)))
                 = logged (trace w) ++ l /\ logs_for err l).
Proof.
  repeat split; intros until err; unfold_ops; split_run; cbn [fst];
    intros Hres; inversion Hres; subst; unfold logs_for; close_logs.
Qed.

(** Property X18.  Any number of calls, one after the other, on a usable handle: the handle
    is still the same afterwards; the channel has seen exactly one call per
    invocation, in order, each under a scope of its own; and every one of
    these scopes has been released. *)
Theorem calls_in_sequence cls : forall w r h c,
  handle w r h c ->
  handle (perform_all quote r cls w) r h c /\
  rpcs (trace (perform_all quote r cls w))
    = rpcs (trace w) ++ expected_rpcs h (scopes w) cls /\
  opened (trace (perform_all quote r cls w))
    = opened (trace w) ++ seq (scopes w) (length cls) /\
  released (trace (perform_all quote r cls w))
    = released (trace w) ++ seq (scopes w) (length cls).
Proof.
  induction cls as [| cl cls IH]; intros w r h c H.
  - cbn. rewrite !app_nil_r. repeat split; apply H.
  - destruct (perform_keeps_handle cl H) as [H' Hscopes].
    destruct (perform_bracketed cl H) as [logs [Hlogs Htrace]].
    destruct (only_logs _ Hlogs) as (Hrpcs & Hopened & Hreleased).
    destruct (IH _ _ _ _ H') as (Hh & Hr & Ho & Hl).
    change (perform_all quote r (cl :: cls) w)
      with (perform_all quote r cls (perform quote r cl w)).
    split; [exact Hh |].
    rewrite Hr, Ho, Hl, Hscopes, Htrace.
    rewrite !rpcs_app, !opened_app, !released_app, Hrpcs, Hopened, Hreleased.
    cbn [rpcs opened released expected_rpcs length seq ctx_id app].
    rewrite ?app_nil_r, <- !app_assoc. repeat split; reflexivity.
Qed.

End Operations.

Section Construction.

Variable S : Type.
Variable quote : string -> string.
Variables Dialer ClientConn TracerProvider : Type.
Variable GetAddressAndDialer : string -> string * Dialer * option error.
Variable grpc_DialContext :
  Context -> string -> list (DialOption Dialer TracerProvider) -> S ->
  (ClientConn * option error) * S.
Variable NewImageServiceClient : ClientConn -> ImageServiceClient S.
Variable KubeletTracing : bool.
Variable maxMsgSize : Z.

Local Abbreviation New :=
  (NewRemoteImageService quote GetAddressAndDialer grpc_DialContext
     NewImageServiceClient KubeletTracing maxMsgSize).

(** The context of the handshake probe: the second scope that the constructor
    opens, bounded by the connection timeout. *)
Local Abbreviation probe_ctx w d :=
  (mkContext (Datatypes.S (scopes w)) (Some d)).

Lemma nth_error_fresh {A} (l : list A) (x : A) :
  nth_error (l ++ [x]) (length l) = Some x.
Proof. induction l as [| a l IH]; [reflexivity | exact IH]. Qed.

Lemma list_set_fresh {A} (l : list A) (x y : A) :
  list_set (l ++ [x]) (length l) y = l ++ [y].
Proof.
  induction l as [| a l IH]; [reflexivity |].
  cbn [app length list_set]. rewrite IH. reflexivity.
Qed.

Lemma Code_eqb_eq (a b : Code) : Code_eqb a b = true <-> a = b.
Proof. destruct a, b; cbn; split; congruence. Qed.

Ltac unfold_new :=
  cbv [NewRemoteImageService validateServiceConnection DialContext alloc store
       getContextWithTimeout context_WithTimeout new_scope
       defer cancel emit klog invoke load deref panic
       bind ret Monad_Go Go_bind Go_ret] in *.

Ltac step_new :=
  repeat (progress (cbn [heap trace backend scopes fst snd timeout imageClient];
                    rewrite ?nth_error_fresh, ?list_set_fresh)).

(** Claim C2.  Once the endpoint is resolved and the channel is dialled, the
    constructor sends one [ImageFsInfo] call on the new channel.  If that
    call fails with an error whose status code is [Unimplemented], the
    constructor returns no handle and an error whose text carries the
    endpoint as the [%q] verb renders it (and so the endpoint itself, letter
    for letter, whenever it needs no escaping); if it fails with any other error,
    the constructor returns a handle and a nil error, and the handle holds the
    connection timeout and the client of the new channel. *)
Theorem handshake_rejects_only_unimplemented
    endpoint d tp (w : World S) addr dialer conn s1 resp err s2 :
  GetAddressAndDialer endpoint = (addr, dialer, None) ->
  grpc_DialContext (mkContext (scopes w) (Some d)) addr
    (dialOpts KubeletTracing maxMsgSize dialer tp) (backend w)
    = (conn, None, s1) ->
  client_ImageFsInfo (NewImageServiceClient conn) (probe_ctx w d)
    Build_ImageFsInfoRequest s1
    = (resp, Some err, s2) ->
  rpcs (trace (snd (New endpoint d tp w)))
    = rpcs (trace w) ++ [(mImageFsInfo, probe_ctx w d)] /\
  (status_Code err = Unimplemented ->
   exists e,
     fst (New endpoint d tp w) = Returns (None, Some e) /\
     Error e =
       ("validate service connection: "
          ++ "CRI v1 image API is not implemented for endpoint "
          ++ quote endpoint ++ ": " ++ Error err)%string /\
     contains (Error e) (quote endpoint) /\
     (quote endpoint = quote_plain endpoint -> contains (Error e) endpoint)) /\
  (status_Code err <> Unimplemented ->
   exists r,
     fst (New endpoint d tp w) = Returns (Some r, None) /\
     nth_error (heap (snd (New endpoint d tp w))) r =
       Some {| timeout := d;
               imageClient := Some (NewImageServiceClient conn) |}).
Proof.
  intros Haddr Hdial Hprobe. unfold_new. rewrite Haddr. step_new.
  rewrite Hdial. step_new. rewrite Hprobe. step_new.
  destruct (Code_eqb (status_Code err) Unimplemented) eqn:Hcode; step_new.
  - split; [| split].
    + rewrite !rpcs_app. cbn [rpcs]. rewrite ?app_nil_r. reflexivity.
    + intros _. eexists. split; [reflexivity |]. split; [reflexivity |].
      split.
      * exists ("validate service connection: "
                  ++ "CRI v1 image API is not implemented for endpoint ")%string,
               (": " ++ Error err)%string.
        reflexivity.
      * intros Hplain. cbn [Error]. rewrite Hplain.
        exact (contains_quote_plain
                 ("validate service connection: "
                    ++ "CRI v1 image API is not implemented for endpoint ")
                 endpoint (": " ++ Error err)).
    + intros Hne. apply Code_eqb_eq in Hcode. contradiction.
  - split; [| split].
    + rewrite !rpcs_app. cbn [rpcs]. rewrite ?app_nil_r. reflexivity.
    + intros Heq. apply Code_eqb_eq in Heq. congruence.
    + intros _. eexists. split; [reflexivity |]. apply nth_error_fresh.
Qed.

(** Claim C8.  A handle returned by a successful construction has its
    [timeout] field equal to the connection timeout that the caller passed
    (and its client field set); and none of the five operations changes any service struct, so the
    [timeout] and [imageClient] fields of a handle stay as construction left
    them. *)
Theorem handle_fields_are_fixed_at_construction :
  (forall endpoint d tp (w : World S) r,
     fst (New endpoint d tp w) = Returns (Some r, None) ->
     exists h, nth_error (heap (snd (New endpoint d tp w))) r = Some h /\
               timeout h = d /\ imageClient h <> None) /\
  (forall (w : World S) r,
     (forall filter, heap (snd (ListImages r filter w)) = heap w) /\
     (forall image verbose,
        heap (snd (ImageStatus quote r image verbose w)) = heap w) /\
     (forall image auth podSandboxConfig,
        heap (snd (PullImage quote r image auth podSandboxConfig w))
          = heap w) /\
     (forall image, heap (snd (RemoveImage r image w)) = heap w) /\
     heap (snd (ImageFsInfo r w)) = heap w).
Proof.
  split; [| intros w r; apply operations_keep_heap].
  intros endpoint d tp w r. unfold_new.
  destruct (GetAddressAndDialer endpoint) as [[addr dialer] [e |]];
    step_new; [discriminate |].
  destruct (grpc_DialContext _ _ _ _) as [[conn [e |]] s1];
    step_new; [discriminate |].
  destruct (client_ImageFsInfo _ _ _ _) as [[resp [e |]] s2]; step_new.
  - destruct (Code_eqb (status_Code e) Unimplemented); step_new;
      intros Hres; inversion Hres.
    eexists. split; [apply nth_error_fresh |].
    split; [reflexivity | discriminate].
  - intros Hres; inversion Hres.
    eexists. split; [apply nth_error_fresh |].
    split; [reflexivity | discriminate].
Qed.

(** *** Further facts about construction *)

Lemma nth_error_list_set {A} (l : list A) (i : nat) (x v : A) :
  nth_error l i = Some x -> nth_error (list_set l i v) i = Some v.
Proof.
  revert i. induction l as [| a l IH]; intros [| i]; cbn; try discriminate.
  - reflexivity.
  - apply IH.
Qed.

Lemma nth_error_list_set_other {A} (l : list A) (i j : nat) (v : A) :
  i <> j -> nth_error (list_set l i v) j = nth_error l j.
Proof.
  revert i j. induction l as [| a l IH]; intros [| i] [| j] Hne; cbn;
    try reflexivity; try congruence.
  apply IH. congruence.
Qed.

Ltac split_new endpoint :=
  unfold_new;
  destruct (GetAddressAndDialer endpoint) as [[?addr ?dialer] [?e |]];
  step_new;
  [| destruct (grpc_DialContext _ _ _ _) as [[?conn [?e |]] ?s1];
     step_new;
     [| destruct (client_ImageFsInfo _ _ _ _) as [[?resp [?e |]] ?s2];
        step_new;
        [destruct (Code_eqb (status_Code _) Unimplemented); step_new |]]].

(** Property X1.  When the endpoint cannot be resolved, the constructor returns the
    resolver's error as it is and has done nothing else: no scope opened, no
    dial, no call, no struct allocated. *)
Theorem address_resolution_failure endpoint d tp (w : World S) addr dialer e :
  GetAddressAndDialer endpoint = (addr, dialer, Some e) ->
  fst (New endpoint d tp w) = Returns (None, Some e) /\
  backend (snd (New endpoint d tp w)) = backend w /\
  heap (snd (New endpoint d tp w)) = heap w /\
  scopes (snd (New endpoint d tp w)) = scopes w /\
  rpcs (trace (snd (New endpoint d tp w))) = rpcs (trace w) /\
  opened (trace (snd (New endpoint d tp w))) = opened (trace w).
Proof.
  intros Haddr. unfold_new. rewrite Haddr. step_new.
  rewrite rpcs_app, opened_app. cbn [rpcs opened]. rewrite !app_nil_r.
  repeat split.
Qed.

(** Property X2.  When dialling fails, the constructor returns the dial error as it is (not
    wrapped), allocates no struct and sends no call; the one scope it opened,
    bounded by the connection timeout, has been released. *)
Theorem dial_failure endpoint d tp (w : World S) addr dialer conn e s1 :
  GetAddressAndDialer endpoint = (addr, dialer, None) ->
  grpc_DialContext (mkContext (scopes w) (Some d)) addr
    (dialOpts KubeletTracing maxMsgSize dialer tp) (backend w)
    = (conn, Some e, s1) ->
  fst (New endpoint d tp w) = Returns (None, Some e) /\
  heap (snd (New endpoint d tp w)) = heap w /\
  backend (snd (New endpoint d tp w)) = s1 /\
  rpcs (trace (snd (New endpoint d tp w))) = rpcs (trace w) /\
  contexts (trace (snd (New endpoint d tp w)))
    = contexts (trace w) ++ [mkContext (scopes w) (Some d)] /\
  released (trace (snd (New endpoint d tp w)))
    = released (trace w) ++ [scopes w].
Proof.
  intros Haddr Hdial. unfold_new. rewrite Haddr. step_new.
  rewrite Hdial. step_new.
  rewrite !rpcs_app, !contexts_app, !released_app.
  cbn [rpcs contexts released]. rewrite !app_nil_r.
  repeat split.
Qed.

(** Property X3.  When the handshake probe succeeds, the constructor returns a fresh handle
    and a nil error; the handle holds the connection timeout and the client
    of the dialled connection, and the probe was the only call sent. *)
Theorem handshake_success
    endpoint d tp (w : World S) addr dialer conn s1 resp s2 :
  GetAddressAndDialer endpoint = (addr, dialer, None) ->
  grpc_DialContext (mkContext (scopes w) (Some d)) addr
    (dialOpts KubeletTracing maxMsgSize dialer tp) (backend w)
    = (conn, None, s1) ->
  client_ImageFsInfo (NewImageServiceClient conn) (probe_ctx w d)
    Build_ImageFsInfoRequest s1
    = (resp, None, s2) ->
  fst (New endpoint d tp w) = Returns (Some (length (heap w)), None) /\
  heap (snd (New endpoint d tp w))
    = heap w ++ [ {| timeout := d;
                     imageClient := Some (NewImageServiceClient conn) |} ] /\
  backend (snd (New endpoint d tp w)) = s2 /\
  rpcs (trace (snd (New endpoint d tp w)))
    = rpcs (trace w) ++ [(mImageFsInfo, probe_ctx w d)].
Proof.
  intros Haddr Hdial Hprobe. unfold_new. rewrite Haddr. step_new.
  rewrite Hdial. step_new. rewrite Hprobe. step_new.
  rewrite !rpcs_app. cbn [rpcs]. rewrite ?app_nil_r.
  repeat split.
Qed.

(** Property X4.  The constructor never panics and never returns a half result: it returns
    either a handle with a nil error or no handle with an error. *)
Theorem constructor_returns_handle_or_error endpoint d tp (w : World S) :
  (exists r, fst (New endpoint d tp w) = Returns (Some r, None)) \/
  (exists e, fst (New endpoint d tp w) = Returns (None, Some e)).
Proof.
  split_new endpoint;
    solve [left; eexists; reflexivity | right; eexists; reflexivity].
Qed.

(** Property X5.  On every path through the constructor the scopes it opened are bounded by
    the connection timeout and have all been released, the last opened
    first. *)
Theorem constructor_releases_its_scopes endpoint d tp (w : World S) :
  exists evs,
    trace (snd (New endpoint d tp w)) = trace w ++ evs /\
    released evs = rev (opened evs) /\
    Forall (fun ctx => ctx_deadline ctx = Some d) (contexts evs).
Proof.
  split_new endpoint;
    (eexists; split; [rewrite <- ?app_assoc; reflexivity |];
     split; [reflexivity | cbn; repeat constructor]).
Qed.

(** Property X6.  The constructor leaves every existing service struct as it is: the heap
    only grows at its end, by at most the one new struct, and a handle that
    is returned points to that new struct. *)
Theorem constructor_only_appends endpoint d tp (w : World S) :
  exists extra,
    heap (snd (New endpoint d tp w)) = heap w ++ extra /\
    length extra <= 1 /\
    forall r, fst (New endpoint d tp w) = Returns (Some r, None) ->
              r = length (heap w) /\ length extra = 1.
Proof.
  split_new endpoint;
    first
      [ exists []; split; [symmetry; apply app_nil_r |];
        split; [cbn; lia | intros r Hres; discriminate]
      | eexists [_]; split; [reflexivity |];
        split; [cbn; lia |];
        intros r Hres; first [discriminate | inversion Hres; split; reflexivity] ].
Qed.

(** Property X7.  The error of a rejected handshake wraps the backend's error: unwrapping
    it twice gives the error value that the probe returned. *)
Theorem rejection_wraps_backend_error
    endpoint d tp (w : World S) addr dialer conn s1 resp err s2 :
  GetAddressAndDialer endpoint = (addr, dialer, None) ->
  grpc_DialContext (mkContext (scopes w) (Some d)) addr
    (dialOpts KubeletTracing maxMsgSize dialer tp) (backend w)
    = (conn, None, s1) ->
  client_ImageFsInfo (NewImageServiceClient conn) (probe_ctx w d)
    Build_ImageFsInfoRequest s1
    = (resp, Some err, s2) ->
  status_Code err = Unimplemented ->
  exists e inner,
    fst (New endpoint d tp w) = Returns (None, Some e) /\
    Unwrap e = Some inner /\ Unwrap inner = Some err.
Proof.
  intros Haddr Hdial Hprobe Hcode. unfold_new. rewrite Haddr. step_new.
  rewrite Hdial. step_new. rewrite Hprobe. step_new.
  rewrite Hcode. cbn [Code_eqb]. step_new.
  do 2 eexists. repeat split.
Qed.

(** Property X8.  [validateServiceConnection] sets the client field of its receiver to the
    client of the connection before it probes, so the field is set even when
    the probe fails or the connection is rejected; the [timeout] field and
    all other structs stay as they were.  It sends one [ImageFsInfo] call,
    under a scope bounded by the receiver's timeout, and returns an error
    exactly when that call failed with status code [Unimplemented]. *)
Theorem validateServiceConnection_installs_client
    (w : World S) r h conn endpoint :
  nth_error (heap w) r = Some h ->
  let run := validateServiceConnection quote NewImageServiceClient r conn
               endpoint w in
  nth_error (heap (snd run)) r
    = Some {| timeout := timeout h;
              imageClient := Some (NewImageServiceClient conn) |} /\
  (forall i, i <> r -> nth_error (heap (snd run)) i = nth_error (heap w) i) /\
  rpcs (trace (snd run)) = rpcs (trace w) ++ [(mImageFsInfo, timed w h)] /\
  ((exists e, fst run = Returns (Some e)) <->
   (exists e,
      snd (fst (client_ImageFsInfo (NewImageServiceClient conn) (timed w h)
                  Build_ImageFsInfoRequest (backend w))) = Some e /\
      status_Code e = Unimplemented)).
Proof.
  intros Hr. cbv zeta. unfold_new. unfold timed.
  repeat (progress (cbn [heap trace backend scopes timeout imageClient];
                    rewrite ?Hr, ?(nth_error_list_set _ _ _ Hr))).
  destruct (client_ImageFsInfo _ _ _ _) as [[resp [e |]] s2];
    cbn [heap trace backend scopes fst snd].
  - destruct (Code_eqb (status_Code e) Unimplemented) eqn:Hcode;
      cbn [heap trace backend scopes fst snd];
      (split; [apply (nth_error_list_set _ _ _ Hr) |]);
      (split; [intros i Hi; apply nth_error_list_set_other; congruence |]);
      (split; [rewrite !rpcs_app; cbn [rpcs]; rewrite ?app_nil_r;
               reflexivity |]).
    + apply Code_eqb_eq in Hcode. split; intros _; eexists;
        [split; [reflexivity | exact Hcode] | reflexivity].
    + split; [intros [e' He']; discriminate |].
      intros [e' [He' Hun]]. inversion He'; subst.
      apply Code_eqb_eq in Hun. congruence.
  - split; [apply (nth_error_list_set _ _ _ Hr) |].
    split; [intros i Hi; apply nth_error_list_set_other; congruence |].
    split; [rewrite !rpcs_app; cbn [rpcs]; rewrite ?app_nil_r; reflexivity |].
    split; [intros [e' He']; discriminate | intros [e' [He' _]]; discriminate].
Qed.

(** Property X9.  A handle that the constructor returned is usable at once: it carries the
    client of the connection that was dialled, and every call made on it is
    bracketed by a scope of its own, bounded by the connection timeout for
    [ListImages], [ImageStatus] and [RemoveImage] and without deadline for
    [PullImage] and [ImageFsInfo]. *)
Theorem constructed_handle_is_usable endpoint d tp (w : World S) r :
  fst (New endpoint d tp w) = Returns (Some r, None) ->
  let w' := snd (New endpoint d tp w) in
  exists h conn,
    handle w' r h (NewImageServiceClient conn) /\
    timeout h = d /\
    (let '(addr, dialer, _) := GetAddressAndDialer endpoint in
     conn = fst (fst (grpc_DialContext (mkContext (scopes w) (Some d)) addr
                        (dialOpts KubeletTracing maxMsgSize dialer tp)
                        (backend w)))) /\
    forall cl,
      bracketed (match cl with
                 | CallPullImage _ _ _ | CallImageFsInfo => None
                 | _ => Some d
                 end)
        (method_of cl) w' (perform quote r cl w').
Proof.
  intros Hres. cbv zeta.
  assert (Hh : exists conn,
             handle (snd (New endpoint d tp w)) r
               {| timeout := d;
                  imageClient := Some (NewImageServiceClient conn) |}
               (NewImageServiceClient conn) /\
             (let '(addr, dialer, _) := GetAddressAndDialer endpoint in
              conn = fst (fst (grpc_DialContext
                                 (mkContext (scopes w) (Some d)) addr
                                 (dialOpts KubeletTracing maxMsgSize dialer tp)
                                 (backend w))))).
  { revert Hres. unfold handle. unfold_new.
    destruct (GetAddressAndDialer endpoint) as [[addr dialer] [e |]];
      step_new; [discriminate |].
    destruct (grpc_DialContext _ _ _ _) as [[conn [e |]] s1];
      step_new; [discriminate |].
    destruct (client_ImageFsInfo _ _ _ _) as [[resp [e |]] s2]; step_new;
      [destruct (Code_eqb (status_Code e) Unimplemented); step_new |];
      intros Hres; inversion Hres; subst;
      exists conn; (split; [split; [apply nth_error_fresh | reflexivity]
                           | reflexivity]). }
  destruct Hh as [conn [Hh Hconn]].
  eexists. exists conn.
  split; [exact Hh |]. split; [reflexivity |]. split; [exact Hconn |].
  intros cl.
  pose proof (perform_bracketed quote cl Hh) as Hb.
  destruct cl; exact Hb.
Qed.

End Construction.

(** * Concrete runs *)

Lemma handle_of_world (sc : Script) :
  handle (world_of sc) 0 (handle_of sc) (scripted sc).
Proof. split; reflexivity. Defined.

(** A record with size zero is refused (scenario 3 of the design document). *)
Lemma ImageStatus_rejects_unset_record_witness :
  handle (world_of (with_status zero_size_status)) 0
    (handle_of (with_status zero_size_status))
    (scripted (with_status zero_size_status)) /\
  ImageStatusResponse_Image zero_size_status
    = Some (image_of "sha256:abc" 0) /\
  (Image_Id (image_of "sha256:abc" 0) = ""
   \/ Image_Size_ (image_of "sha256:abc" 0) = 0%N) /\
  fst (ImageStatus quote_plain 0 (Some busybox) false
         (world_of (with_status zero_size_status)))
    = Returns (None,
               Some (errors_New ("Id or size of image "
                                   ++ quote_plain "busybox:1.36"
                                   ++ " is not set")%string)).
Proof.
  split; [apply handle_of_world |].
  split; [reflexivity |].
  split; [right; reflexivity |].
  apply (@ImageStatus_rejects_unset_record nat quote_plain
           (world_of (with_status zero_size_status)) 0
           (handle_of (with_status zero_size_status))
           (scripted (with_status zero_size_status))
           busybox false zero_size_status (image_of "sha256:abc" 0) 1).
  - apply handle_of_world.
  - reflexivity.
  - reflexivity.
  - right. reflexivity.
Defined.

(** Claim C4, as stated, fails: for an answer without a record the call does
    not return nil, it returns the answer. *)
Lemma ImageStatus_absent_record_is_not_nil :
  on_ImageStatus (with_status no_record_status)
    = (Some no_record_status, None) /\
  ImageStatusResponse_Image no_record_status = None /\
  fst (ImageStatus quote_plain 0 (Some busybox) false
         (world_of (with_status no_record_status)))
    = Returns (Some no_record_status, None) /\
  fst (ImageStatus quote_plain 0 (Some busybox) false
         (world_of (with_status no_record_status)))
    <> Returns (None, None).
Proof.
  split; [reflexivity |]. split; [reflexivity |].
  split; [reflexivity | discriminate].
Qed.

Lemma ImageStatus_absent_record_returns_response_witness :
  handle (world_of (with_status no_record_status)) 0
    (handle_of (with_status no_record_status))
    (scripted (with_status no_record_status)) /\
  ImageStatusResponse_Image no_record_status = None /\
  fst (ImageStatus quote_plain 0 (Some busybox) true
         (world_of (with_status no_record_status)))
    = Returns (Some no_record_status, None).
Proof.
  split; [apply handle_of_world |].
  split; [reflexivity |].
  apply (@ImageStatus_absent_record_returns_response nat quote_plain
           (world_of (with_status no_record_status)) 0
           (handle_of (with_status no_record_status))
           (scripted (with_status no_record_status))
           (Some busybox) true no_record_status 1).
  - apply handle_of_world.
  - reflexivity.
  - reflexivity.
Defined.

(** An empty reference is refused (scenario 4 of the design document); a
    reference that is set is handed on. *)
Lemma PullImage_checks_reference_witness :
  handle (world_of (with_pull "")) 0 (handle_of (with_pull ""))
    (scripted (with_pull "")) /\
  (exists msg,
     fst (PullImage quote_plain 0 (Some busybox) None None
            (world_of (with_pull "")))
       = Returns ("", Some (errors_New msg)) /\
     contains msg "busybox:1.36") /\
  fst (PullImage quote_plain 0 (Some busybox) None None
         (world_of (with_pull "sha256:abc")))
    = Returns ("sha256:abc", None).
Proof.
  split; [apply handle_of_world |]. split.
  - destruct (@PullImage_checks_reference nat quote_plain
                (world_of (with_pull "")) 0 (handle_of (with_pull ""))
                (scripted (with_pull "")) (Some busybox) None None
                {| PullImageResponse_ImageRef := "" |} 1
                (handle_of_world (with_pull "")) eq_refl) as [Hempty _].
    destruct (Hempty eq_refl busybox eq_refl) as [msg [Hrun [_ [_ Hmsg]]]].
    exists msg. split; [assumption | apply Hmsg; reflexivity].
  - destruct (@PullImage_checks_reference nat quote_plain
                (world_of (with_pull "sha256:abc")) 0
                (handle_of (with_pull "sha256:abc"))
                (scripted (with_pull "sha256:abc")) (Some busybox) None None
                {| PullImageResponse_ImageRef := "sha256:abc" |} 1
                (handle_of_world (with_pull "sha256:abc")) eq_refl)
      as [_ Hset].
    apply Hset. discriminate.
Defined.

(** Removal succeeds on a healthy backend (scenario 5 of the design
    document) and hands on the backend's error otherwise. *)
Lemma RemoveImage_returns_backend_error_witness :
  handle (world_of healthy) 0 (handle_of healthy) (scripted healthy) /\
  fst (RemoveImage 0 (Some busybox) (world_of healthy)) = Returns None /\
  fst (RemoveImage 0 (Some busybox) (world_of (failing unavailable)))
    = Returns (Some unavailable).
Proof.
  split; [apply handle_of_world |]. split.
  - apply (@RemoveImage_returns_backend_error nat (world_of healthy) 0
             (handle_of healthy) (scripted healthy) (Some busybox)
             (Some Build_RemoveImageResponse) None 1
             (handle_of_world healthy) eq_refl).
    reflexivity.
  - apply (@RemoveImage_returns_backend_error nat
             (world_of (failing unavailable)) 0
             (handle_of (failing unavailable))
             (scripted (failing unavailable)) (Some busybox)
             None (Some unavailable) 1
             (handle_of_world (failing unavailable)) eq_refl
           ) with (spec := busybox); reflexivity.
Defined.

Lemma ListImages_returns_backend_collection_witness :
  handle (world_of healthy) 0 (handle_of healthy) (scripted healthy) /\
  fst (ListImages 0 None (world_of healthy))
    = Returns (Some [Some (image_of "sha256:abc" 4096)], None).
Proof.
  split; [apply handle_of_world |].
  apply (@ListImages_returns_backend_collection nat (world_of healthy) 0
           (handle_of healthy) (scripted healthy) None
           {| ListImagesResponse_Images :=
                Some [Some (image_of "sha256:abc" 4096)] |} 1).
  - apply handle_of_world.
  - reflexivity.
Defined.

(** Construction against a backend that does not implement the service fails
    and names the endpoint (scenario 2 of the design document); against a
    backend that is merely unavailable it succeeds. *)
Lemma handshake_rejects_only_unimplemented_witness :
  status_Code unimplemented = Unimplemented /\
  status_Code unavailable <> Unimplemented /\
  (exists e,
     fst (connect (failing unimplemented) containerd_sock two_seconds
            empty_world) = Returns (None, Some e) /\
     contains (Error e) containerd_sock) /\
  (exists r,
     fst (connect (failing unavailable) containerd_sock two_seconds
            empty_world) = Returns (Some r, None) /\
     nth_error
       (heap (snd (connect (failing unavailable) containerd_sock two_seconds
                     empty_world))) r
       = Some (handle_of (failing unavailable))).
Proof.
  split; [reflexivity |]. split; [discriminate |]. split.
  - destruct (@handshake_rejects_only_unimplemented nat quote_plain
                unit Script unit (fun ep : string => (ep, tt, None))
                (fun _ _ _ n => (failing unimplemented, None, n))
                scripted false 16777216%Z containerd_sock two_seconds None
                empty_world containerd_sock tt (failing unimplemented) 0
                None unimplemented 1 eq_refl eq_refl eq_refl)
      as [_ [Hreject _]].
    destruct (Hreject eq_refl) as [e [Hrun [_ [_ Hnames]]]].
    exists e. split; [assumption | apply Hnames; reflexivity].
  - destruct (@handshake_rejects_only_unimplemented nat quote_plain
                unit Script unit (fun ep : string => (ep, tt, None))
                (fun _ _ _ n => (failing unavailable, None, n))
                scripted false 16777216%Z containerd_sock two_seconds None
                empty_world containerd_sock tt (failing unavailable) 0
                None unavailable 1 eq_refl eq_refl eq_refl)
      as [_ [_ Haccept]].
    apply Haccept. discriminate.
Defined.

Lemma operations_run_in_released_scopes_witness :
  handle (world_of (failing unavailable)) 0 (handle_of (failing unavailable))
    (scripted (failing unavailable)) /\
  bracketed (Some two_seconds) mRemoveImage (world_of (failing unavailable))
    (snd (RemoveImage 0 (Some busybox) (world_of (failing unavailable)))) /\
  bracketed None mPullImage (world_of (failing unavailable))
    (snd (PullImage quote_plain 0 (Some busybox) None None
            (world_of (failing unavailable)))) /\
  scopes_released empty_world (snd (ImageFsInfo 0 empty_world)).
Proof.
  split; [apply handle_of_world |].
  destruct (@operations_run_in_released_scopes nat quote_plain
              (world_of (failing unavailable)) 0) as [_ Hhandle].
  destruct (Hhandle _ _ (handle_of_world (failing unavailable)))
    as (_ & _ & Hremove & Hpull & _).
  split; [apply Hremove |]. split; [apply Hpull |].
  destruct (@operations_run_in_released_scopes nat quote_plain empty_world 0)
    as [(_ & _ & _ & _ & Hfs) _].
  exact Hfs.
Defined.

(** Construction hands out a handle that holds the connection timeout
    (scenario 1 of the design document). *)
Lemma handle_fields_are_fixed_at_construction_witness :
  fst (connect healthy containerd_sock two_seconds empty_world)
    = Returns (Some 0, None) /\
  (exists h,
     nth_error
       (heap (snd (connect healthy containerd_sock two_seconds empty_world))) 0
       = Some h /\
     timeout h = two_seconds /\ imageClient h <> None) /\
  heap (snd (PullImage quote_plain 0 (Some busybox) None None
               (world_of healthy)))
    = heap (world_of healthy).
Proof.
  split; [reflexivity |].
  destruct (@handle_fields_are_fixed_at_construction nat quote_plain
              unit Script unit (fun ep : string => (ep, tt, None))
              (fun _ _ _ n => (healthy, None, n))
              scripted false 16777216%Z) as [Hnew Hops].
  split.
  - apply (Hnew containerd_sock two_seconds None empty_world 0). reflexivity.
  - destruct (Hops (world_of healthy) 0) as (_ & _ & Hpull & _).
    apply Hpull.
Defined.

Lemma one_call_and_backend_errors_unchanged_witness :
  handle (world_of (failing unavailable)) 0 (handle_of (failing unavailable))
    (scripted (failing unavailable)) /\
  rpcs (trace (snd (ListImages 0 None (world_of (failing unavailable)))))
    = [(mListImages, mkContext 0 (Some two_seconds))] /\
  fst (ListImages 0 None (world_of (failing unavailable)))
    = Returns (None, Some unavailable) /\
  fst (PullImage quote_plain 0 (Some busybox) None None
         (world_of (failing unavailable)))
    = Returns ("", Some unavailable).
Proof.
  split; [apply handle_of_world |].
  destruct (@one_call_and_backend_errors_unchanged nat quote_plain
              (world_of (failing unavailable)) 0
              (handle_of (failing unavailable))
              (scripted (failing unavailable))
              (handle_of_world (failing unavailable)))
    as (Hlist & _ & _ & _ & Hpull & _).
  destruct (Hlist None) as [Hone Herr].
  split; [exact Hone |].
  split; [apply (Herr None unavailable 1); reflexivity |].
  apply (Hpull busybox None None None unavailable 1). reflexivity.
Defined.

Lemma results_with_an_error_are_zero_witness :
  fst (ImageStatus quote_plain 0 (Some busybox) false
         (world_of (with_status zero_size_status)))
    = Returns (None,
               Some (errors_New ("Id or size of image "
                                   ++ quote_plain "busybox:1.36"
                                   ++ " is not set")%string)) /\
  forall v e,
    fst (ImageStatus quote_plain 0 (Some busybox) false
           (world_of (with_status zero_size_status)))
      = Returns (v, Some e) ->
    v = None.
Proof.
  split; [reflexivity |].
  destruct (@results_with_an_error_are_zero nat quote_plain
              (world_of (with_status zero_size_status)) 0)
    as (_ & _ & Hstatus & _).
  apply Hstatus.
Defined.

(** On the paths that log the image name, [image.Image] is evaluated: a call
    that passes a nil image spec panics there instead of returning. *)
Example nil_image_spec_panics_where_logged :
  fst (ImageStatus quote_plain 0 None false (world_of (failing unavailable)))
    = Panics /\
  fst (ImageStatus quote_plain 0 None false
         (world_of (with_status zero_size_status))) = Panics /\
  fst (PullImage quote_plain 0 None None None (world_of (with_pull "")))
    = Panics /\
  fst (RemoveImage 0 None (world_of (failing unavailable))) = Panics /\
  fst (RemoveImage 0 None (world_of healthy)) = Returns None.
Proof. repeat split. Qed.

(** * Concrete runs of the further facts *)

Lemma ImageStatus_accepts_set_record_witness :
  handle (world_of healthy) 0 (handle_of healthy) (scripted healthy) /\
  Image_Id (image_of "sha256:abc" 4096) <> "" /\
  Image_Size_ (image_of "sha256:abc" 4096) <> 0%N /\
  fst (ImageStatus quote_plain 0 (Some busybox) false (world_of healthy))
    = Returns (fst (on_ImageStatus healthy), None).
Proof.
  split; [apply handle_of_world |].
  split; [discriminate |]. split; [discriminate |].
  apply (@ImageStatus_accepts_set_record nat quote_plain (world_of healthy) 0
           (handle_of healthy) (scripted healthy) (Some busybox) false
           {| ImageStatusResponse_Image := Some (image_of "sha256:abc" 4096);
              ImageStatusResponse_Info := [] |}
           (image_of "sha256:abc" 4096) 1
           (handle_of_world healthy) eq_refl eq_refl);
    discriminate.
Defined.

Lemma ImageStatus_nil_error_means_checked_response_witness :
  fst (ImageStatus quote_plain 0 (Some busybox) false (world_of healthy))
    = Returns (fst (on_ImageStatus healthy), None) /\
  exists resp,
    fst (on_ImageStatus healthy) = Some resp /\
    forall img, ImageStatusResponse_Image resp = Some img ->
                Image_Id img <> "" /\ Image_Size_ img <> 0%N.
Proof.
  split; [reflexivity |].
  apply (@ImageStatus_nil_error_means_checked_response nat quote_plain
           (world_of healthy) 0 (Some busybox) false
           (fst (on_ImageStatus healthy))).
  reflexivity.
Defined.

Lemma PullImage_nil_error_means_reference_witness :
  fst (PullImage quote_plain 0 (Some busybox) None None (world_of healthy))
    = Returns ("sha256:abc", None) /\
  "sha256:abc" <> "".
Proof.
  split; [reflexivity |].
  apply (@PullImage_nil_error_means_reference nat quote_plain
           (world_of healthy) 0 (Some busybox) None None "sha256:abc").
  reflexivity.
Defined.

Lemma nil_answer_without_error_witness :
  handle (world_of silent) 0 (handle_of silent) (scripted silent) /\
  fst (ImageFsInfo 0 (world_of silent)) = Returns (None, None) /\
  fst (RemoveImage 0 (Some busybox) (world_of silent)) = Returns None /\
  fst (ListImages 0 None (world_of silent)) = Panics /\
  fst (ImageStatus quote_plain 0 (Some busybox) false (world_of silent))
    = Panics /\
  fst (PullImage quote_plain 0 (Some busybox) None None (world_of silent))
    = Panics.
Proof.
  split; [apply handle_of_world |].
  destruct (@nil_answer_without_error nat quote_plain (world_of silent) 0
              (handle_of silent) (scripted silent) (handle_of_world silent))
    as (Hfs & Hremove & Hlist & Hstatus & Hpull).
  split; [apply (Hfs 1); reflexivity |].
  split; [apply (Hremove (Some busybox) 1); reflexivity |].
  split; [apply (Hlist None 1); reflexivity |].
  split; [apply (Hstatus (Some busybox) false 1); reflexivity |].
  apply (Hpull (Some busybox) None None 1); reflexivity.
Defined.

Lemma operations_return_witness :
  handle (world_of (failing unavailable)) 0 (handle_of (failing unavailable))
    (scripted (failing unavailable)) /\
  (exists v, fst (ListImages 0 None (world_of (failing unavailable)))
               = Returns v) /\
  (exists v, fst (ImageStatus quote_plain 0 (Some busybox) true
                    (world_of (failing unavailable))) = Returns v) /\
  (exists v, fst (ImageFsInfo 0 (world_of (failing unavailable)))
               = Returns v).
Proof.
  split; [apply handle_of_world |].
  destruct (@operations_return nat quote_plain
              (world_of (failing unavailable)) 0
              (handle_of (failing unavailable))
              (scripted (failing unavailable))
              (handle_of_world (failing unavailable)))
    as (Hlist & Hstatus & _ & _ & Hfs).
  split; [apply (Hlist None None (Some unavailable) 1);
          [reflexivity | discriminate] |].
  split; [apply (Hstatus busybox true None (Some unavailable) 1);
          [reflexivity | discriminate] |].
  exact Hfs.
Defined.

Lemma nil_image_spec_panics_on_backend_error_witness :
  handle (world_of (failing unavailable)) 0 (handle_of (failing unavailable))
    (scripted (failing unavailable)) /\
  fst (ImageStatus quote_plain 0 None false (world_of (failing unavailable)))
    = Panics /\
  fst (PullImage quote_plain 0 None None None
         (world_of (failing unavailable))) = Panics /\
  fst (RemoveImage 0 None (world_of (failing unavailable))) = Panics.
Proof.
  split; [apply handle_of_world |].
  destruct (@nil_image_spec_panics_on_backend_error nat quote_plain
              (world_of (failing unavailable)) 0
              (handle_of (failing unavailable))
              (scripted (failing unavailable))
              (handle_of_world (failing unavailable)))
    as (Hstatus & Hpull & Hremove).
  split; [apply (Hstatus false None unavailable 1); reflexivity |].
  split; [apply (Hpull None None None unavailable 1); reflexivity |].
  apply (Hremove None unavailable 1); reflexivity.
Defined.

Lemma backend_sees_the_callers_request_witness :
  handle (world_of healthy) 0 (handle_of healthy) (scripted healthy) /\
  backend (snd (PullImage quote_plain 0 (Some busybox) None None
                  (world_of healthy))) = 1 /\
  backend (snd (ImageStatus quote_plain 0 None false
                  (world_of (failing unavailable)))) = 1.
Proof.
  split; [apply handle_of_world |]. split.
  - destruct (@backend_sees_the_callers_request nat quote_plain
                (world_of healthy) 0 (handle_of healthy) (scripted healthy)
                (handle_of_world healthy)) as (_ & _ & Hpull & _).
    apply (Hpull (Some busybox) None None).
  - destruct (@backend_sees_the_callers_request nat quote_plain
                (world_of (failing unavailable)) 0
                (handle_of (failing unavailable))
                (scripted (failing unavailable))
                (handle_of_world (failing unavailable)))
      as (_ & Hstatus & _).
    apply (Hstatus None false).
Defined.

Lemma errors_are_logged_once_witness :
  (exists l,
     logged (trace (snd (ListImages 0 None (world_of healthy)))) = [] ++ l /\
     l = []) /\
  (exists l,
     logged (trace (snd (PullImage quote_plain 0 (Some busybox) None None
                           (world_of (with_pull ""))))) = [] ++ l /\
     exists e msg kv, l = [ErrorS e msg kv]).
Proof.
  split.
  - destruct (@errors_are_logged_once nat quote_plain (world_of healthy) 0)
      as (Hlist & _).
    apply (Hlist None (Some [Some (image_of "sha256:abc" 4096)]) None).
    reflexivity.
  - destruct (@errors_are_logged_once nat quote_plain
                (world_of (with_pull "")) 0) as (_ & _ & Hpull & _).
    apply (Hpull (Some busybox) None None ""
             (Some (errors_New ("imageRef of image "
                                  ++ quote_plain "busybox:1.36"
                                  ++ " is not set")%string))).
    reflexivity.
Defined.

(** Three calls in a row, the last of which panics (a nil image spec and a
    failing backend): three calls on the channel, three scopes, all
    released. *)
Lemma calls_in_sequence_witness :
  handle (world_of (failing unavailable)) 0 (handle_of (failing unavailable))
    (scripted (failing unavailable)) /\
  rpcs (trace (perform_all quote_plain 0 three_calls
                 (world_of (failing unavailable))))
    = [ (mListImages, mkContext 0 (Some two_seconds));
        (mPullImage, mkContext 1 None);
        (mImageStatus, mkContext 2 (Some two_seconds)) ] /\
  opened (trace (perform_all quote_plain 0 three_calls
                   (world_of (failing unavailable)))) = [0; 1; 2] /\
  released (trace (perform_all quote_plain 0 three_calls
                     (world_of (failing unavailable)))) = [0; 1; 2].
Proof.
  split; [apply handle_of_world |].
  destruct (@calls_in_sequence nat quote_plain three_calls
              (world_of (failing unavailable)) 0
              (handle_of (failing unavailable))
              (scripted (failing unavailable))
              (handle_of_world (failing unavailable)))
    as (_ & Hrpcs & Hopened & Hreleased).
  split; [exact Hrpcs |]. split; [exact Hopened | exact Hreleased].
Defined.

Lemma address_resolution_failure_witness :
  fst (connect_via (Some bad_endpoint) None healthy "" two_seconds
         empty_world) = Returns (None, Some bad_endpoint) /\
  heap (snd (connect_via (Some bad_endpoint) None healthy "" two_seconds
               empty_world)) = [] /\
  scopes (snd (connect_via (Some bad_endpoint) None healthy "" two_seconds
                 empty_world)) = 0.
Proof.
  destruct (@address_resolution_failure nat quote_plain unit Script unit
              (fun ep : string => (ep, tt, Some bad_endpoint))
              (fun _ _ _ n => (healthy, None, n))
              scripted false 16777216%Z "" two_seconds None empty_world
              "" tt bad_endpoint eq_refl)
    as (Hres & _ & Hheap & Hscopes & _).
  split; [exact Hres |]. split; [exact Hheap | exact Hscopes].
Defined.

Lemma dial_failure_witness :
  fst (connect_via None (Some unavailable) healthy containerd_sock
         two_seconds empty_world) = Returns (None, Some unavailable) /\
  heap (snd (connect_via None (Some unavailable) healthy containerd_sock
               two_seconds empty_world)) = [] /\
  released (trace (snd (connect_via None (Some unavailable) healthy
                          containerd_sock two_seconds empty_world))) = [0].
Proof.
  destruct (@dial_failure nat quote_plain unit Script unit
              (fun ep : string => (ep, tt, None))
              (fun _ _ _ n => (healthy, Some unavailable, n))
              scripted false 16777216%Z containerd_sock two_seconds None
              empty_world containerd_sock tt healthy unavailable 0
              eq_refl eq_refl)
    as (Hres & Hheap & _ & _ & _ & Hreleased).
  split; [exact Hres |]. split; [exact Hheap | exact Hreleased].
Defined.

Lemma handshake_success_witness :
  fst (connect healthy containerd_sock two_seconds empty_world)
    = Returns (Some 0, None) /\
  heap (snd (connect healthy containerd_sock two_seconds empty_world))
    = [handle_of healthy] /\
  rpcs (trace (snd (connect healthy containerd_sock two_seconds
                      empty_world)))
    = [(mImageFsInfo, mkContext 1 (Some two_seconds))].
Proof.
  destruct (@handshake_success nat quote_plain unit Script unit
              (fun ep : string => (ep, tt, None))
              (fun _ _ _ n => (healthy, None, n))
              scripted false 16777216%Z containerd_sock two_seconds None
              empty_world containerd_sock tt healthy 0
              (fst (on_ImageFsInfo healthy)) 1
              eq_refl eq_refl eq_refl)
    as (Hres & Hheap & _ & Hrpcs).
  split; [exact Hres |]. split; [exact Hheap | exact Hrpcs].
Defined.

Lemma constructor_only_appends_witness :
  fst (connect healthy containerd_sock two_seconds (world_of healthy))
    = Returns (Some 1, None) /\
  exists extra,
    heap (snd (connect healthy containerd_sock two_seconds
                 (world_of healthy)))
      = heap (world_of healthy) ++ extra /\
    length extra <= 1 /\
    forall r,
      fst (connect healthy containerd_sock two_seconds (world_of healthy))
        = Returns (Some r, None) ->
      r = length (heap (world_of healthy)) /\ length extra = 1.
Proof.
  split; [reflexivity |].
  apply (@constructor_only_appends nat quote_plain unit Script unit
           (fun ep : string => (ep, tt, None))
           (fun _ _ _ n => (healthy, None, n))
           scripted false 16777216%Z containerd_sock two_seconds None
           (world_of healthy)).
Defined.

Lemma rejection_wraps_backend_error_witness :
  status_Code unimplemented = Unimplemented /\
  exists e inner,
    fst (connect (failing unimplemented) containerd_sock two_seconds
           empty_world) = Returns (None, Some e) /\
    Unwrap e = Some inner /\ Unwrap inner = Some unimplemented.
Proof.
  split; [reflexivity |].
  apply (@rejection_wraps_backend_error nat quote_plain unit Script unit
           (fun ep : string => (ep, tt, None))
           (fun _ _ _ n => (failing unimplemented, None, n))
           scripted false 16777216%Z containerd_sock two_seconds None
           empty_world containerd_sock tt (failing unimplemented) 0
           None unimplemented 1 eq_refl eq_refl eq_refl eq_refl).
Defined.

(** Validating an existing struct against another connection replaces its
    client, also when the connection is rejected. *)
Lemma validateServiceConnection_installs_client_witness :
  nth_error (heap (world_of healthy)) 0 = Some (handle_of healthy) /\
  nth_error
    (heap (snd (validateServiceConnection quote_plain scripted 0
                  (failing unimplemented) containerd_sock
                  (world_of healthy)))) 0
    = Some (handle_of (failing unimplemented)) /\
  exists e,
    fst (validateServiceConnection quote_plain scripted 0
           (failing unimplemented) containerd_sock (world_of healthy))
      = Returns (Some e).
Proof.
  split; [reflexivity |].
  destruct (@validateServiceConnection_installs_client nat quote_plain Script
              scripted (world_of healthy) 0 (handle_of healthy)
              (failing unimplemented) containerd_sock eq_refl)
    as (Hclient & _ & _ & Hreject).
  split; [exact Hclient |].
  apply Hreject. exists unimplemented. split; reflexivity.
Defined.

(** Construct, then ask for the filesystem usage (scenario 1 of the design
    document). *)
Lemma constructed_handle_is_usable_witness :
  fst (connect healthy containerd_sock two_seconds empty_world)
    = Returns (Some 0, None) /\
  bracketed (Some two_seconds) mListImages
    (snd (connect healthy containerd_sock two_seconds empty_world))
    (perform quote_plain 0 (CallListImages None)
       (snd (connect healthy containerd_sock two_seconds empty_world))) /\
  bracketed None mImageFsInfo
    (snd (connect healthy containerd_sock two_seconds empty_world))
    (perform quote_plain 0 CallImageFsInfo
       (snd (connect healthy containerd_sock two_seconds empty_world))).
Proof.
  split; [reflexivity |].
  unfold connect.
  destruct (@constructed_handle_is_usable nat quote_plain unit Script unit
              (fun ep : string => (ep, tt, None))
              (fun _ _ _ n => (healthy, None, n))
              scripted false 16777216%Z containerd_sock two_seconds None
              empty_world 0 eq_refl)
    as (h & conn & _ & _ & _ & Hcalls).
  split.
  - exact (Hcalls (CallListImages None)).
  - exact (Hcalls CallImageFsInfo).
Defined.

(** * Calls that pass no image spec, and references that [%q] escapes *)

Lemma prefix_append (sub post : string) : prefix sub (sub ++ post) = true.
Proof.
  induction sub as [| a sub IH]; [destruct post; reflexivity |].
  cbn [append prefix]. destruct (ascii_dec a a); [exact IH | congruence].
Qed.

Lemma contains_occurs (s sub : string) : contains s sub -> occurs sub s = true.
Proof.
  intros [pre [post ->]].
  induction pre as [| a pre IH].
  - cbn [append]. destruct (sub ++ post)%string eqn:E; cbn [occurs];
      rewrite <- E, prefix_append; reflexivity.
  - cbn [append occurs]. rewrite IH.
    destruct (prefix sub (String a (pre ++ sub ++ post))); reflexivity.
Qed.

(** Claim C1, as stated, fails: the backend answers without error and with
    a record of size zero, and a call that passes a nil image spec panics
    (while building the error text from [image.Image]) instead of returning
    an error. *)
Lemma ImageStatus_nil_spec_unset_record_panics :
  on_ImageStatus (with_status zero_size_status)
    = (Some zero_size_status, None) /\
  ImageStatusResponse_Image zero_size_status
    = Some (image_of "sha256:abc" 0) /\
  Image_Size_ (image_of "sha256:abc" 0) = 0%N /\
  fst (ImageStatus quote_plain 0 None false
         (world_of (with_status zero_size_status))) = Panics /\
  forall v e,
    fst (ImageStatus quote_plain 0 None false
           (world_of (with_status zero_size_status)))
      <> Returns (v, Some e).
Proof.
  repeat split. intros v e. discriminate.
Qed.

(** Claim C3, as stated, fails in two ways when the backend answers with an
    empty reference.  A call that passes a nil image spec panics instead of
    returning an error.  And for a requested reference with a backslash in
    it, the error text carries the [%q] rendering, in which the backslash is
    doubled, so the reference itself does not occur in the text. *)
Lemma PullImage_empty_reference_nil_spec_or_escaped :
  on_PullImage (with_pull "")
    = (Some {| PullImageResponse_ImageRef := "" |}, None) /\
  fst (PullImage quote_plain 0 None None None (world_of (with_pull "")))
    = Panics /\
  (forall v e,
     fst (PullImage quote_plain 0 None None None (world_of (with_pull "")))
       <> Returns (v, Some e)) /\
  quote_printable "registry\busybox"
    = (String "034"%char "registry\\busybox" ++ String "034"%char "")%string /\
  exists msg,
    fst (PullImage quote_printable 0 (Some backslashed) None None
           (world_of (with_pull "")))
      = Returns ("", Some (errors_New msg)) /\
    ~ contains msg (ImageSpec_Image backslashed).
Proof.
  split; [reflexivity |]. split; [reflexivity |].
  split; [intros v e; discriminate |]. split; [reflexivity |].
  eexists. split; [reflexivity |].
  intros Hin. apply contains_occurs in Hin. discriminate Hin.
Qed.

(** Claim C5, as stated, fails: the backend's call returns an error, and a
    call that passes a nil image spec panics (while logging [image.Image])
    instead of returning that error. *)
Lemma RemoveImage_nil_spec_backend_error_panics :
  on_RemoveImage (failing unavailable) = (None, Some unavailable) /\
  fst (RemoveImage 0 None (world_of (failing unavailable))) = Panics /\
  fst (RemoveImage 0 None (world_of (failing unavailable)))
    <> Returns (Some unavailable).
Proof.
  repeat split. discriminate.
Qed.

(** Claim C9, as stated, fails: with a nil image spec the backend's error is
    not returned by [ImageStatus], [PullImage] and [RemoveImage]; each sends
    its one call and then panics while logging [image.Image]. *)
Lemma backend_error_not_returned_for_nil_spec :
  on_ImageStatus (failing unavailable) = (None, Some unavailable) /\
  on_PullImage (failing unavailable) = (None, Some unavailable) /\
  on_RemoveImage (failing unavailable) = (None, Some unavailable) /\
  fst (ImageStatus quote_plain 0 None false (world_of (failing unavailable)))
    <> Returns (None, Some unavailable) /\
  fst (PullImage quote_plain 0 None None None
         (world_of (failing unavailable)))
    <> Returns ("", Some unavailable) /\
  fst (RemoveImage 0 None (world_of (failing unavailable)))
    <> Returns (Some unavailable) /\
  rpcs (trace (snd (ImageStatus quote_plain 0 None false
                      (world_of (failing unavailable)))))
    = [(mImageStatus, mkContext 0 (Some two_seconds))].
Proof.
  repeat split; discriminate.
Qed.
